(** * The Bernoulli distribution of [tensorflow.contrib.distributions]

    A shallow embedding of [bernoulli.py] and the properties of its
    operations.

    Tensors are flat row-major buffers with a shape and an element-type tag.
    Floating elements are IEEE values with the rounding idealised away: a
    finite element is a real number, and the three special values NaN, -inf
    and +inf behave as IEEE prescribes (signed zeros are not distinguished).
    Graph construction and evaluation are collapsed into one step: an
    assertion that guards a tensor fails the call that builds the tensor.
    The operands of an element-wise operation must have one element type,
    or the operation raises a TypeError.  Name scopes only label the nodes
    of the graph and are left out. *)

From Stdlib Require Import String Bool Reals Lra Lia Arith ZArith List.
Import ListNotations.

Set Implicit Arguments.

(** ** Floating elements *)

Inductive fp : Type :=
| NaN
| NegInf
| PosInf
| Fin (r : R).

Module FP.

Local Open Scope R_scope.

Definition neg (x : fp) : fp :=
  match x with
  | NaN => NaN
  | NegInf => PosInf
  | PosInf => NegInf
  | Fin r => Fin (- r)
  end.

Definition add (x y : fp) : fp :=
  match x, y with
  | NaN, _ | _, NaN => NaN
  | PosInf, NegInf | NegInf, PosInf => NaN
  | PosInf, _ | _, PosInf => PosInf
  | NegInf, _ | _, NegInf => NegInf
  | Fin a, Fin b => Fin (a + b)
  end.

Definition sub (x y : fp) : fp := add x (neg y).

(** The infinity whose sign is the sign of [r] times the sign of [x];
    zero times an infinity is NaN. *)
Definition scale_inf (x : fp) (r : R) : fp :=
  if Rlt_dec 0 r then x
  else if Rlt_dec r 0 then neg x
  else NaN.

Definition mul (x y : fp) : fp :=
  match x, y with
  | NaN, _ | _, NaN => NaN
  | Fin a, Fin b => Fin (a * b)
  | Fin a, i => scale_inf i a
  | i, Fin b => scale_inf i b
  | PosInf, PosInf | NegInf, NegInf => PosInf
  | PosInf, NegInf | NegInf, PosInf => NegInf
  end.

Definition log (x : fp) : fp :=
  match x with
  | NaN | NegInf => NaN
  | PosInf => PosInf
  | Fin r =>
      if Rlt_dec r 0 then NaN
      else if Req_dec_T r 0 then NegInf
      else Fin (ln r)
  end.

Definition exp (x : fp) : fp :=
  match x with
  | NaN => NaN
  | NegInf => Fin 0
  | PosInf => PosInf
  | Fin r => Fin (Rtrigo_def.exp r)
  end.

Definition sqrt (x : fp) : fp :=
  match x with
  | NaN | NegInf => NaN
  | PosInf => PosInf
  | Fin r => if Rlt_dec r 0 then NaN else Fin (R_sqrt.sqrt r)
  end.

(** The logistic function on the reals, [1 / (1 + e^-r)]. *)
Definition Rsigmoid (r : R) : R := / (1 + Rtrigo_def.exp (- r)).

Definition sigmoid (x : fp) : fp :=
  match x with
  | NaN => NaN
  | NegInf => Fin 0
  | PosInf => Fin 1
  | Fin r => Fin (Rsigmoid r)
  end.

(** Comparisons are false as soon as one side is NaN. *)
Definition ltb (x y : fp) : bool :=
  match x, y with
  | NaN, _ | _, NaN => false
  | _, NegInf | PosInf, _ => false
  | NegInf, _ | _, PosInf => true
  | Fin a, Fin b => if Rlt_dec a b then true else false
  end.

Definition leb (x y : fp) : bool :=
  match x, y with
  | NaN, _ | _, NaN => false
  | NegInf, _ | _, PosInf => true
  | _, NegInf | PosInf, _ => false
  | Fin a, Fin b => if Rle_dec a b then true else false
  end.

Definition gtb (x y : fp) : bool := ltb y x.

End FP.

(** ** Exceptions *)

Inductive exn : Type :=
| ValueError (msg : string)
| TypeError (msg : string)
| InvalidArgumentError (msg : string).

Inductive result (A : Type) : Type :=
| Ok (a : A)
| Raise (e : exn).

Arguments Raise {A} e.

Definition bind {A B : Type} (m : result A) (k : A -> result B) : result B :=
  match m with
  | Ok a => k a
  | Raise e => Raise e
  end.

Notation "x <- m ;; k" := (bind m (fun x => k))
  (at level 61, m at next level, right associativity).

(** ** Tensors *)

Inductive DType : Type := float32 | float64 | int32 | int64 | bool_.

Module Tensor.

Record t (A : Type) : Type := mk {
  dtype : DType;
  shape : list nat;
  data : list A
}.

End Tensor.

Abbreviation Tensor := Tensor.t.
Abbreviation mkTensor := Tensor.mk.

Definition dtype_eqb (a b : DType) : bool :=
  match a, b with
  | float32, float32 | float64, float64
  | int32, int32 | int64, int64 | bool_, bool_ => true
  | _, _ => false
  end.

(** Number of elements of a shape. *)
Definition size (s : list nat) : nat := fold_right Nat.mul 1 s.

(** A buffer holds exactly the elements its shape announces. *)
Definition wf {A : Type} (t : Tensor A) : Prop :=
  length (Tensor.data t) = size (Tensor.shape t).

Definition map2 {A B C : Type} (f : A -> B -> C) (xs : list A) (ys : list B)
  : list C :=
  map (fun xy => f (fst xy) (snd xy)) (combine xs ys).

(** *** Broadcasting *)

Definition broadcast_dim (x y : nat) : option nat :=
  if x =? y then Some x
  else if x =? 1 then Some y
  else if y =? 1 then Some x
  else None.

(** Shapes are matched from their last dimension backwards. *)
Fixpoint broadcast_rev (a b : list nat) : option (list nat) :=
  match a, b with
  | [], _ => Some b
  | _, [] => Some a
  | x :: a', y :: b' =>
      match broadcast_dim x y, broadcast_rev a' b' with
      | Some d, Some r => Some (d :: r)
      | _, _ => None
      end
  end.

Definition broadcast_shape (a b : list nat) : option (list nat) :=
  option_map (@rev nat) (broadcast_rev (rev a) (rev b)).

(** Missing leading dimensions count as 1. *)
Definition align (ins outs : list nat) : list nat :=
  repeat 1 (length outs - length ins) ++ ins.

(** The buffer of shape [outs] read off a buffer of shape [ins], both of the
    same rank: a dimension of the same extent is walked block by block, a
    dimension of extent 1 is repeated. *)
Fixpoint tile {A : Type} (ins outs : list nat) (l : list A) : list A :=
  match ins, outs with
  | di :: ins', d :: outs' =>
      let chunk := size ins' in
      if di =? d then
        flat_map
          (fun j => tile ins' outs' (firstn chunk (skipn (j * chunk) l)))
          (seq 0 d)
      else
        flat_map (fun _ => tile ins' outs' l) (seq 0 d)
  | _, _ => l
  end.

Definition broadcast_to {A : Type} (t : Tensor A) (s : list nat) : Tensor A :=
  mkTensor (Tensor.dtype t) s
    (tile (align (Tensor.shape t) s) s (Tensor.data t)).

(** An element-wise operation of two tensors, with broadcasting; the result
    is tagged [d].  The engine refuses operands of different element types
    before it looks at their shapes. *)
Definition binop {A B C : Type} (d : DType) (f : A -> B -> C)
    (a : Tensor A) (b : Tensor B) : result (Tensor C) :=
  if dtype_eqb (Tensor.dtype a) (Tensor.dtype b) then
    match broadcast_shape (Tensor.shape a) (Tensor.shape b) with
    | Some s =>
        Ok (mkTensor d s
              (map2 f (Tensor.data (broadcast_to a s))
                      (Tensor.data (broadcast_to b s))))
    | None => Raise (ValueError "Incompatible shapes for broadcasting")
    end
  else Raise (TypeError "Input y has a type that does not match argument x").

Definition unop {A B : Type} (f : A -> B) (a : Tensor A) : Tensor B :=
  mkTensor (Tensor.dtype a) (Tensor.shape a) (map f (Tensor.data a)).

(** A scalar tensor.  A Python number used as the operand of an overloaded
    operator becomes a scalar of the other operand's element type; a Python
    float converted on its own becomes a 32-bit float. *)
Definition constant {A : Type} (d : DType) (x : A) : Tensor A :=
  mkTensor d [] [x].

(** *** Element conversion *)

Definition wrap (bits z : Z) : Z :=
  ((z + 2 ^ (bits - 1)) mod 2 ^ bits - 2 ^ (bits - 1))%Z.

Class Castable (A : Type) : Type := cast_elem : DType -> A -> fp.

#[export] Instance Castable_Z : Castable Z := fun d z =>
  match d with
  | float32 | float64 => Fin (IZR z)
  | int32 => Fin (IZR (wrap 32 z))
  | int64 => Fin (IZR (wrap 64 z))
  | bool_ => if (z =? 0)%Z then Fin 0 else Fin 1
  end.

#[export] Instance Castable_bool : Castable bool := fun _ b =>
  if b then Fin 1 else Fin 0.

(** ** The array engine's operations used by the class *)

Module ops.

Definition convert_to_tensor (n : nat) : Tensor Z :=
  constant int32 (Z.of_nat n).

End ops.

Module array_ops.

Definition identity {A : Type} (t : Tensor A) : Tensor A := t.

(** The run-time shape, a vector of 32-bit integers. *)
Definition shape {A : Type} (t : Tensor A) : Tensor Z :=
  mkTensor int32 [length (Tensor.shape t)] (map Z.of_nat (Tensor.shape t)).

Definition ones_like (t : Tensor fp) : Tensor fp :=
  mkTensor (Tensor.dtype t) (Tensor.shape t)
    (repeat (Fin 1) (size (Tensor.shape t))).

(** [expand_dims t 0]: a new leading dimension of extent 1. *)
Definition expand_dims_0 {A : Type} (t : Tensor A) : Tensor A :=
  mkTensor (Tensor.dtype t) (1 :: Tensor.shape t) (Tensor.data t).

(** [concat 0 [a; b]] on vectors. *)
Definition concat_0 {A : Type} (a b : Tensor A) : Tensor A :=
  mkTensor (Tensor.dtype a)
    [length (Tensor.data a) + length (Tensor.data b)]
    (Tensor.data a ++ Tensor.data b).

End array_ops.

Module math_ops.

Definition sigmoid : Tensor fp -> Tensor fp := unop FP.sigmoid.
Definition log : Tensor fp -> Tensor fp := unop FP.log.
Definition exp : Tensor fp -> Tensor fp := unop FP.exp.
Definition sqrt : Tensor fp -> Tensor fp := unop FP.sqrt.
Definition neg : Tensor fp -> Tensor fp := unop FP.neg.

Definition add (a b : Tensor fp) := binop (Tensor.dtype a) FP.add a b.
Definition sub (a b : Tensor fp) := binop (Tensor.dtype a) FP.sub a b.
Definition mul (a b : Tensor fp) := binop (Tensor.dtype a) FP.mul a b.

Definition less (a b : Tensor fp) := binop bool_ FP.ltb a b.
Definition greater (a b : Tensor fp) := binop bool_ FP.gtb a b.
Definition less_equal (a b : Tensor fp) := binop bool_ FP.leb a b.

Definition reduce_all (t : Tensor bool) : bool :=
  forallb (fun b => b) (Tensor.data t).

Definition cast {A : Type} `{Castable A} (t : Tensor A) (d : DType)
  : Tensor fp :=
  mkTensor d (Tensor.shape t) (map (cast_elem d) (Tensor.data t)).

End math_ops.

Module check_ops.

(** Holds when [x <= y] at every position; otherwise the guarded value
    cannot be produced.  Both arguments are converted to tensors on their
    own, so a Python float among them is a 32-bit float whatever the element
    type of the other. *)
Definition assert_less_equal (x y : Tensor fp) : result unit :=
  c <- math_ops.less_equal x y ;;
  if math_ops.reduce_all c then Ok tt
  else Raise (InvalidArgumentError "Condition x <= y did not hold element-wise").

End check_ops.

Module nn.

(** [xent] is the engine's stable element formula; the operation itself
    insists on operands of one shape. *)
Definition sigmoid_cross_entropy_with_logits (xent : fp -> fp -> fp)
    (logits targets : Tensor fp) : result (Tensor fp) :=
  if list_eq_dec Nat.eq_dec (Tensor.shape logits) (Tensor.shape targets) then
    Ok (mkTensor (Tensor.dtype logits) (Tensor.shape logits)
          (map2 xent (Tensor.data logits) (Tensor.data targets)))
  else Raise (ValueError "logits and targets must have the same shape").

End nn.

Module random_ops.

(** The ambient source of randomness an unseeded draw consumes. *)
Definition entropy : Type := nat -> fp.

(** Modelled from the spec: [random_ops.random_uniform], the engine's uniform
    generator, is not part of the sources here.  Following 'a uniform-random
    generator parameterized by an optional seed and a target shape/dtype' and
    'using the provided seed for reproducibility when given (absence of seed
    => nondeterministic draw)': a seeded draw reads the stream [seeded] fixes
    for that seed and leaves the ambient source alone, an unseeded draw
    consumes the ambient source. *)
Definition random_uniform (seeded : Z -> DType -> nat -> fp)
    (shape_t : Tensor Z) (seed : option Z) (d : DType) (w : entropy)
  : Tensor fp * entropy :=
  let dims := map Z.to_nat (Tensor.data shape_t) in
  let count := size dims in
  match seed with
  | Some s => (mkTensor d dims (map (seeded s d) (seq 0 count)), w)
  | None => (mkTensor d dims (map w (seq 0 count)), fun k => w (k + count))
  end.

End random_ops.

Module tensor_shape.

Definition scalar : list nat := [].
Definition vector (n : nat) : list nat := [n].
Definition concatenate (a b : list nat) : list nat := a ++ b.

End tensor_shape.

(** [t.set_shape s]: the static shape must agree with what is known. *)
Definition set_shape {A : Type} (t : Tensor A) (s : list nat)
  : result (Tensor A) :=
  if list_eq_dec Nat.eq_dec (Tensor.shape t) s then Ok t
  else Raise (ValueError "Shapes are not compatible").

(** ** The class *)

Module Bernoulli.

Record t : Type := mk {
  _strict_statistics : bool;
  _name : string;
  _dtype : DType;
  _strict : bool;
  _logits : Tensor fp;
  _p : Tensor fp;
  _q : Tensor fp;
  _batch_shape : Tensor Z;
  _event_shape : Tensor Z
}.

(** The part of the constructor after the branches: [q], the batch shape and
    the (empty) event shape. *)
Definition finish (strict_statistics : bool) (name : string) (dtype : DType)
    (strict : bool) (logits p : Tensor fp) : result t :=
  q <- math_ops.sub (constant (Tensor.dtype p) (Fin 1)) p ;;
  Ok (mk strict_statistics name dtype strict logits p q
        (array_ops.shape logits) (mkTensor int32 [0] [])).

Definition __init__ (logits p : option (Tensor fp)) (dtype : DType)
    (strict strict_statistics : bool) (name : string) : result t :=
  let check_op := check_ops.assert_less_equal in
  match p, logits with
  | None, None => Raise (ValueError "Must pass p or logits.")
  | Some _, Some _ => Raise (ValueError "Must pass either p or logits, not both.")
  | None, Some logits =>
      let logits' := array_ops.identity logits in
      let p' := math_ops.sigmoid logits' in
      finish strict_statistics name dtype strict logits' p'
  | Some p, None =>
      _ <- (if strict then
              _ <- check_op p (constant float32 (Fin 1)) ;;
              check_op (constant float32 (Fin 0)) p
            else Ok tt) ;;
      let p' := array_ops.identity p in
      one_minus_p <- math_ops.sub (constant (Tensor.dtype p') (Fin 1)) p' ;;
      logits' <- math_ops.sub (math_ops.log p') (math_ops.log one_minus_p) ;;
      finish strict_statistics name dtype strict logits' p'
  end.

Definition strict_statistics (self : t) : bool := _strict_statistics self.
Definition strict (self : t) : bool := _strict self.
Definition name (self : t) : string := _name self.
Definition dtype (self : t) : DType := _dtype self.
Definition is_reparameterized (self : t) : bool := false.
Definition is_continuous (self : t) : bool := false.

Definition batch_shape (self : t) : Tensor Z :=
  array_ops.identity (_batch_shape self).

Definition get_batch_shape (self : t) : list nat :=
  Tensor.shape (_logits self).

Definition event_shape (self : t) : Tensor Z :=
  mkTensor (Tensor.dtype (_batch_shape self)) [0] [].

Definition get_event_shape (self : t) : list nat := tensor_shape.scalar.

Definition logits (self : t) : Tensor fp := _logits self.
Definition p (self : t) : Tensor fp := _p self.
Definition q (self : t) : Tensor fp := _q self.

Section Engine.

(** The element formula of the engine's stable sigmoid cross-entropy, and the
    streams its seeded generator produces. *)
Variable stable_xent : fp -> fp -> fp.
Variable seeded_noise : Z -> DType -> nat -> fp.

Definition log_prob (self : t) (event : Tensor Z) : result (Tensor fp) :=
  let event1 := math_ops.cast event (Tensor.dtype (logits self)) in
  logits' <- math_ops.mul (array_ops.ones_like event1) (logits self) ;;
  event2 <- math_ops.mul (array_ops.ones_like (logits self)) event1 ;;
  x <- nn.sigmoid_cross_entropy_with_logits stable_xent logits' event2 ;;
  Ok (math_ops.neg x).

(** The uniform noise a call of [sample] draws, with the ambient source it
    leaves behind. *)
Definition sample_uniform (self : t) (n : nat) (seed : option Z)
    (w : random_ops.entropy) : Tensor fp * random_ops.entropy :=
  let n' := ops.convert_to_tensor n in
  let new_shape :=
    array_ops.concat_0 (array_ops.expand_dims_0 n') (batch_shape self) in
  random_ops.random_uniform seeded_noise new_shape seed float32 w.

Definition sample (self : t) (n : nat) (seed : option Z)
    (w : random_ops.entropy) : result (Tensor fp) * random_ops.entropy :=
  let (uniform, w') := sample_uniform self n seed w in
  (sample <- math_ops.less uniform (p self) ;;
   sample' <- set_shape sample
     (tensor_shape.concatenate (tensor_shape.vector n) (get_batch_shape self)) ;;
   Ok (math_ops.cast sample' (dtype self)),
   w').

End Engine.

Definition entropy (self : t) : result (Tensor fp) :=
  a <- math_ops.sub (math_ops.sigmoid (logits self))
         (constant (Tensor.dtype (logits self)) (Fin 1)) ;;
  b <- math_ops.mul (math_ops.neg (logits self)) a ;;
  c <- math_ops.add (math_ops.exp (math_ops.neg (logits self)))
         (constant (Tensor.dtype (logits self)) (Fin 1)) ;;
  math_ops.add b (math_ops.log c).

Definition mean (self : t) : Tensor fp := array_ops.identity (p self).

Definition mode (self : t) : result (Tensor fp) :=
  c <- math_ops.greater (p self) (q self) ;;
  Ok (math_ops.cast c (dtype self)).

Definition variance (self : t) : result (Tensor fp) :=
  math_ops.mul (q self) (p self).

Definition std (self : t) : result (Tensor fp) :=
  v <- variance self ;;
  Ok (math_ops.sqrt v).

End Bernoulli.

(** ** Vocabulary of the statements *)

Definition wf_param {A : Type} (o : option (Tensor A)) : Prop :=
  match o with
  | Some t => wf t
  | None => True
  end.

(** The instances the constructor hands out for well-formed parameters. *)
Inductive built : Bernoulli.t -> Prop :=
| built_by logits p dtype strict strict_statistics name self :
    wf_param logits -> wf_param p ->
    Bernoulli.__init__ logits p dtype strict strict_statistics name = Ok self ->
    built self.

(** An element that is a number between 0 and 1. *)
Definition in_unit (x : fp) : Prop :=
  FP.leb (Fin 0) x = true /\ FP.leb x (Fin 1) = true.

(** A dimension of the operand either has the extent of the result or is 1. *)
Definition stretches (ins outs : list nat) : Prop :=
  Forall2 (fun di d => di = d \/ di = 1) ins outs.

(** The log-odds the constructor derives from a probability. *)
Definition logit (x : fp) : fp :=
  FP.sub (FP.log x) (FP.log (FP.sub (Fin 1) x)).

(** Both assertions of a strict construction hold. *)
Definition in_range (prob : Tensor fp) : bool :=
  forallb (fun x => FP.leb x (Fin 1)) (Tensor.data prob)
  && forallb (fun x => FP.leb (Fin 0) x) (Tensor.data prob).

(** A strict construction goes through: the probability is a 32-bit float
    tensor, as the bounds it is compared with are, and is in range. *)
Definition passes_strict (prob : Tensor fp) : bool :=
  dtype_eqb (Tensor.dtype prob) float32 && in_range prob.

(** What a strict construction raises otherwise. *)
Definition strict_failure (prob : Tensor fp) : exn :=
  if dtype_eqb (Tensor.dtype prob) float32
  then InvalidArgumentError "Condition x <= y did not hold element-wise"
  else TypeError "Input y has a type that does not match argument x".

Definition from_logits (l : Tensor fp) (d : DType) (s ss : bool) (nm : string)
  : Bernoulli.t :=
  Bernoulli.mk ss nm d s l (math_ops.sigmoid l)
    (unop (FP.sub (Fin 1)) (math_ops.sigmoid l))
    (array_ops.shape l) (mkTensor int32 [0] []).

Definition from_p (prob : Tensor fp) (d : DType) (s ss : bool) (nm : string)
  : Bernoulli.t :=
  Bernoulli.mk ss nm d s (unop logit prob) prob
    (unop (FP.sub (Fin 1)) prob)
    (array_ops.shape prob) (mkTensor int32 [0] []).

(** The stored log-odds and probability determine each other. *)
Definition consistent (self : Bernoulli.t) : Prop :=
  let p := Bernoulli.p self in
  p = math_ops.sigmoid (Bernoulli.logits self) /\
  (one_minus_p <- math_ops.sub (constant (Tensor.dtype p) (Fin 1)) p ;;
   math_ops.sub (math_ops.log p) (math_ops.log one_minus_p))
  = Ok (Bernoulli.logits self).

(** A probability of 3/2 at a single batch position. *)
Definition p_three_halves : Tensor fp := mkTensor float32 [1] [Fin (3 / 2)].

(** The same probability stored in double precision. *)
Definition p_three_halves_double : Tensor fp :=
  mkTensor float64 [1] [Fin (3 / 2)].

(** A probability of 1/2 at a single batch position. *)
Definition p_half : Tensor fp := mkTensor float32 [1] [Fin (1 / 2)].

(** Log-odds 0, a fair coin, at a single batch position. *)
Definition logits_zero : Tensor fp := mkTensor float32 [1] [Fin 0].

(** The event 1 at a single batch position. *)
Definition event_one : Tensor Z := mkTensor int64 [1] [1%Z].

(** The cross-entropy of log-odds [x] against a target [z] written without
    any care for stability, [log (1 + e^x) - z * x]; it stands for the
    engine's formula where a concrete one is needed. *)
Definition plain_xent (x z : fp) : fp :=
  FP.sub (FP.log (FP.add (Fin 1) (FP.exp x))) (FP.mul z x).

(** A generator whose seeded streams are constantly 1/4, and an ambient
    source that is constantly 3/4. *)
Definition low_stream : Z -> DType -> nat -> fp := fun _ _ _ => Fin (1 / 4).
Definition high_source : random_ops.entropy := fun _ => Fin (3 / 4).

(** Log-odds 0 at a single batch position, stored in double precision. *)
Definition logits_zero_double : Tensor fp := mkTensor float64 [1] [Fin 0].

(** The entropy formula of the class at one batch position. *)
Definition entropy_at (x : fp) : fp :=
  FP.add (FP.mul (FP.neg x) (FP.sub (FP.sigmoid x) (Fin 1)))
         (FP.log (FP.add (FP.exp (FP.neg x)) (Fin 1))).

(** The entropy of a coin of bias [p], [- p ln p - (1 - p) ln (1 - p)]. *)
Definition binary_entropy (p : R) : R :=
  (- p * ln p - (1 - p) * ln (1 - p))%R.

(** The log-mass as the specification words it: broadcast the log-odds and
    the converted event to their common shape, apply the stable
    cross-entropy, negate. *)
Definition log_mass_spec (xent : fp -> fp -> fp) (self : Bernoulli.t)
    (event : Tensor Z) : result (Tensor fp) :=
  let logits := Bernoulli.logits self in
  match broadcast_shape (Tensor.shape event) (Tensor.shape logits) with
  | Some s =>
      x <- nn.sigmoid_cross_entropy_with_logits xent
             (broadcast_to logits s)
             (broadcast_to (math_ops.cast event (Tensor.dtype logits)) s) ;;
      Ok (math_ops.neg x)
  | None => Raise (ValueError "Incompatible shapes for broadcasting")
  end.

(** The stream a draw reads: the seed's own, or the ambient source. *)
Definition draw_of (seeded : Z -> DType -> nat -> fp) (seed : option Z)
    (d : DType) (w : random_ops.entropy) : nat -> fp :=
  match seed with
  | Some s => seeded s d
  | None => w
  end.

(** Probabilities 0 and 1 side by side, the two ends of the valid range. *)
Definition p_endpoints : Tensor fp := mkTensor float32 [2] [Fin 0; Fin 1].

(** Three batch positions with log-odds 0, 1 and -1. *)
Definition logits_three : Tensor fp :=
  mkTensor float32 [3] [Fin 0; Fin 1; Fin (-1)].

(** Two events, and an event for each of three positions. *)
Definition event_pair : Tensor Z := mkTensor int32 [2] [1%Z; 0%Z].
Definition event_triple : Tensor Z := mkTensor int32 [3] [1%Z; 0%Z; 1%Z].

(** The element an outcome is stored as. *)
Definition indicator (b : bool) : fp := if b then Fin 1 else Fin 0.

(** [n] replicas of a batch thresholded against a stream of noise: output
    position [i] is 1 exactly when the [i]-th value of the stream is
    strictly below the probability the position falls on. *)
Definition thresholded (draw : nat -> fp) (n : nat) (bs : list nat)
    (pdata : list fp) : list fp :=
  map2 (fun u x => indicator (FP.ltb u x))
    (map draw (seq 0 (n * size bs)))
    (flat_map (fun _ => pdata) (seq 0 n)).

(** * Properties *)

(** ** Lists *)

Section ListFacts.

Context {A B C : Type}.

Lemma map2_length (f : A -> B -> C) xs ys :
  length xs = length ys -> length (map2 f xs ys) = length xs.
Proof.
  intros H. unfold map2. rewrite length_map, length_combine. lia.
Qed.

Lemma map2_repeat_l (f : A -> B -> C) c ys :
  map2 f (repeat c (length ys)) ys = map (f c) ys.
Proof.
  unfold map2. induction ys as [|y ys IH]; simpl; [reflexivity|].
  now rewrite IH.
Qed.

Lemma map2_repeat_r (f : A -> B -> C) c xs :
  map2 f xs (repeat c (length xs)) = map (fun x => f x c) xs.
Proof.
  unfold map2. induction xs as [|x xs IH]; simpl; [reflexivity|].
  now rewrite IH.
Qed.

Lemma map2_nth (f : A -> B -> C) xs ys i dx dy d :
  i < length xs -> i < length ys ->
  nth i (map2 f xs ys) d = f (nth i xs dx) (nth i ys dy).
Proof.
  unfold map2. revert ys i.
  induction xs as [|x xs IH]; intros [|y ys] [|i]; simpl; intros Hx Hy;
    try lia; [reflexivity|].
  apply IH; lia.
Qed.

Lemma skipn_repeat (c : A) k n : skipn k (repeat c n) = repeat c (n - k).
Proof.
  revert n. induction k as [|k IH]; intros [|n]; simpl; auto.
Qed.

Lemma firstn_repeat (c : A) k n : k <= n -> firstn k (repeat c n) = repeat c k.
Proof.
  revert n. induction k as [|k IH]; intros [|n] H; simpl; try lia; auto.
  f_equal. apply IH. lia.
Qed.

Lemma flat_map_ext_in (f g : nat -> list A) l :
  (forall j, In j l -> f j = g j) -> flat_map f l = flat_map g l.
Proof.
  intros H. rewrite !flat_map_concat_map. f_equal. now apply map_ext_in.
Qed.

Lemma flat_map_const_repeat (c : A) k n :
  flat_map (fun _ : nat => repeat c k) (seq 0 n) = repeat c (n * k).
Proof.
  generalize 0. induction n as [|n IH]; intros s; simpl; [reflexivity|].
  now rewrite IH, repeat_app.
Qed.

(** Cutting a buffer into [d] blocks of [c] elements and gluing them back. *)
Lemma blocks_glue c d (l : list A) :
  length l = d * c ->
  flat_map (fun j => firstn c (skipn (j * c) l)) (seq 0 d) = l.
Proof.
  revert l. induction d as [|d IH]; intros l H; simpl.
  - destruct l; [reflexivity | discriminate].
  - rewrite <- seq_shift, flat_map_concat_map, map_map, <- flat_map_concat_map.
    etransitivity; [| apply (firstn_skipn c l)]. f_equal.
    transitivity
      (flat_map (fun j => firstn c (skipn (j * c) (skipn c l))) (seq 0 d)).
    + apply flat_map_ext_in. intros j _.
      rewrite skipn_skipn. do 2 f_equal. simpl. lia.
    + apply IH. rewrite length_skipn. simpl in H. lia.
Qed.

Lemma flat_map_length_const (f : nat -> list A) l k :
  (forall j, In j l -> length (f j) = k) ->
  length (flat_map f l) = length l * k.
Proof.
  induction l as [|j l IH]; intros H; simpl; [reflexivity|].
  rewrite length_app, (H j) by (simpl; auto).
  rewrite IH; [reflexivity|].
  intros j' Hj'. apply H. now right.
Qed.

Lemma flat_map_const_length (l : list A) n :
  length (flat_map (fun _ : nat => l) (seq 0 n)) = n * length l.
Proof.
  generalize 0. induction n as [|n IH]; intros s; simpl; [reflexivity|].
  now rewrite length_app, IH.
Qed.

(** Reading a buffer repeated [n] times. *)
Lemma flat_map_const_nth (l : list A) n i d :
  i < n * length l ->
  nth i (flat_map (fun _ : nat => l) (seq 0 n)) d = nth (i mod length l) l d.
Proof.
  generalize 0. revert i. induction n as [|n IH]; intros i s H; simpl in *.
  - lia.
  - assert (Hl : length l <> 0) by (intros E; rewrite E in H; lia).
    destruct (Nat.lt_ge_cases i (length l)) as [Hi | Hi].
    + rewrite app_nth1 by assumption. now rewrite Nat.mod_small.
    + rewrite app_nth2 by assumption. rewrite IH by lia.
      f_equal. replace i with ((i - length l) + 1 * length l) at 2 by lia.
      now rewrite Nat.Div0.mod_add.
Qed.

End ListFacts.

(** ** Shapes and broadcasting *)

Lemma size_app a b : size (a ++ b) = size a * size b.
Proof.
  induction a as [|x a IH]; simpl; [lia|]. rewrite IH. lia.
Qed.

Lemma size_ones k : size (repeat 1 k) = 1.
Proof.
  induction k as [|k IH]; simpl; lia.
Qed.

Lemma size_align ins outs : size (align ins outs) = size ins.
Proof.
  unfold align. rewrite size_app, size_ones. lia.
Qed.

Lemma align_same s : align s s = s.
Proof.
  unfold align. now rewrite Nat.sub_diag.
Qed.

Lemma align_lead n bs : align bs (n :: bs) = 1 :: bs.
Proof.
  unfold align. simpl length.
  now replace (S (length bs) - length bs) with 1 by lia.
Qed.

Lemma broadcast_dim_same x : broadcast_dim x x = Some x.
Proof.
  unfold broadcast_dim. now rewrite Nat.eqb_refl.
Qed.

Lemma broadcast_dim_comm x y : broadcast_dim x y = broadcast_dim y x.
Proof.
  unfold broadcast_dim.
  destruct (Nat.eqb_spec x y), (Nat.eqb_spec y x), (Nat.eqb_spec x 1),
    (Nat.eqb_spec y 1); subst; congruence.
Qed.

Lemma broadcast_dim_stretches x y d :
  broadcast_dim x y = Some d -> (x = d \/ x = 1) /\ (y = d \/ y = 1).
Proof.
  unfold broadcast_dim.
  destruct (Nat.eqb_spec x y), (Nat.eqb_spec x 1), (Nat.eqb_spec y 1);
    intros H; inversion H; subst; auto.
Qed.

Lemma broadcast_rev_nil_r a : broadcast_rev a [] = Some a.
Proof.
  now destruct a.
Qed.

Lemma broadcast_rev_comm a b : broadcast_rev a b = broadcast_rev b a.
Proof.
  revert b. induction a as [|x a IH]; intros [|y b]; simpl; try reflexivity.
  now rewrite IH, broadcast_dim_comm.
Qed.

Lemma broadcast_rev_prefix a c : broadcast_rev (a ++ c) a = Some (a ++ c).
Proof.
  induction a as [|x a IH]; simpl.
  - apply broadcast_rev_nil_r.
  - now rewrite broadcast_dim_same, IH.
Qed.

Lemma broadcast_shape_comm a b : broadcast_shape a b = broadcast_shape b a.
Proof.
  unfold broadcast_shape. now rewrite broadcast_rev_comm.
Qed.

Lemma broadcast_shape_nil_l s : broadcast_shape [] s = Some s.
Proof.
  unfold broadcast_shape. simpl. now rewrite rev_involutive.
Qed.

Lemma broadcast_shape_nil_r s : broadcast_shape s [] = Some s.
Proof.
  rewrite broadcast_shape_comm. apply broadcast_shape_nil_l.
Qed.

Lemma broadcast_shape_same s : broadcast_shape s s = Some s.
Proof.
  unfold broadcast_shape.
  rewrite <- (app_nil_r (rev s)) at 1.
  rewrite broadcast_rev_prefix, app_nil_r. simpl. now rewrite rev_involutive.
Qed.

(** A batch of [n] replicas against the batch itself. *)
Lemma broadcast_shape_lead n bs : broadcast_shape (n :: bs) bs = Some (n :: bs).
Proof.
  unfold broadcast_shape. simpl rev.
  rewrite broadcast_rev_prefix. simpl. now rewrite rev_app_distr, rev_involutive.
Qed.

Lemma stretches_same s : stretches s s.
Proof.
  induction s; constructor; auto.
Qed.

Lemma stretches_ones s : stretches (repeat 1 (length s)) s.
Proof.
  induction s; simpl; constructor; auto.
Qed.

Lemma stretches_rev a b : stretches a b -> stretches (rev a) (rev b).
Proof.
  induction 1; simpl; [constructor|].
  apply Forall2_app; [assumption | constructor; [assumption | constructor]].
Qed.

(** The operands of a broadcast, padded with ones on the far side, stretch
    to the result (stated on reversed shapes). *)
Lemma broadcast_rev_stretches a b s :
  broadcast_rev a b = Some s ->
  stretches (a ++ repeat 1 (length s - length a)) s /\
  stretches (b ++ repeat 1 (length s - length b)) s.
Proof.
  revert b s. induction a as [|x a IH]; intros [|y b] s H; simpl in H.
  - inversion H; subst. split; constructor.
  - inversion H; subst. simpl. rewrite Nat.sub_diag, app_nil_r.
    split; [apply (stretches_ones (y :: b)) | apply stretches_same].
  - inversion H; subst. rewrite Nat.sub_diag, app_nil_r.
    split; [apply stretches_same | apply (stretches_ones (x :: a))].
  - destruct (broadcast_dim x y) as [d|] eqn:Hd; [|discriminate].
    destruct (broadcast_rev a b) as [r|] eqn:Hr; [|discriminate].
    inversion H; subst.
    destruct (broadcast_dim_stretches _ _ Hd) as [Hx Hy].
    destruct (IH _ _ Hr) as [Ha Hb].
    split; constructor; assumption.
Qed.

Lemma broadcast_shape_stretches a b s :
  broadcast_shape a b = Some s ->
  stretches (align a s) s /\ stretches (align b s) s.
Proof.
  unfold broadcast_shape, align. intros H.
  destruct (broadcast_rev (rev a) (rev b)) as [r|] eqn:Hr; [|discriminate].
  inversion H; subst.
  destruct (broadcast_rev_stretches _ _ Hr) as [Ha Hb].
  apply stretches_rev in Ha, Hb.
  rewrite rev_app_distr, rev_involutive, rev_repeat in Ha, Hb.
  now rewrite !length_rev in *.
Qed.

(** ** Reading a buffer at a broadcast shape *)

Section Tile.

Context {A : Type}.

Lemma tile_same s (l : list A) : length l = size s -> tile s s l = l.
Proof.
  revert l. induction s as [|d s IH]; intros l H; simpl; [reflexivity|].
  rewrite Nat.eqb_refl. simpl in H.
  transitivity (flat_map (fun j => firstn (size s) (skipn (j * size s) l))
                  (seq 0 d)).
  - apply flat_map_ext_in. intros j Hj. apply in_seq in Hj.
    apply IH. rewrite length_firstn, length_skipn. nia.
  - now apply blocks_glue.
Qed.

Lemma tile_length ins outs (l : list A) :
  stretches ins outs -> length l = size ins ->
  length (tile ins outs l) = size outs.
Proof.
  intros H. revert l. induction H as [|di d ins outs Hd _ IH]; intros l Hl;
    simpl in *; [assumption|].
  destruct (Nat.eqb_spec di d) as [E | E];
    rewrite (@flat_map_length_const _ _ _ (size outs));
    try (now rewrite length_seq);
    intros j Hj; apply in_seq in Hj; apply IH.
  - subst di. rewrite length_firstn, length_skipn. nia.
  - destruct Hd; [contradiction | subst di; lia].
Qed.

(** A constant buffer stays constant. *)
Lemma tile_const ins outs (c : A) :
  stretches ins outs ->
  tile ins outs (repeat c (size ins)) = repeat c (size outs).
Proof.
  induction 1 as [|di d ins outs Hd _ IH]; simpl; [reflexivity|].
  rewrite <- (flat_map_const_repeat c (size outs) d).
  destruct (Nat.eqb_spec di d) as [E | E]; apply flat_map_ext_in;
    intros j Hj; apply in_seq in Hj.
  - subst di. rewrite skipn_repeat, firstn_repeat by nia. exact IH.
  - destruct Hd; [contradiction | subst di].
    now rewrite Nat.mul_1_l.
Qed.

(** A buffer read under one more leading dimension is repeated. *)
Lemma tile_lead n bs (l : list A) :
  length l = size bs ->
  tile (1 :: bs) (n :: bs) l = flat_map (fun _ => l) (seq 0 n).
Proof.
  intros H. change (tile (1 :: bs) (n :: bs) l)
    with (if 1 =? n
          then flat_map
                 (fun j => tile bs bs (firstn (size bs) (skipn (j * size bs) l)))
                 (seq 0 n)
          else flat_map (fun _ => tile bs bs l) (seq 0 n)).
  destruct (Nat.eqb_spec 1 n) as [E | E].
  - subst n. simpl. rewrite firstn_all2 by lia. now rewrite tile_same.
  - apply flat_map_ext_in. intros j _. now apply tile_same.
Qed.

End Tile.

(** ** Element-wise operations *)

Lemma broadcast_to_same {A : Type} (a : Tensor A) :
  wf a -> Tensor.data (broadcast_to a (Tensor.shape a)) = Tensor.data a.
Proof.
  intros H. simpl. rewrite align_same. now apply tile_same.
Qed.

Lemma broadcast_to_length {A : Type} (a : Tensor A) s :
  stretches (align (Tensor.shape a) s) s -> wf a ->
  length (Tensor.data (broadcast_to a s)) = size s.
Proof.
  intros Hs H. simpl. apply tile_length; [assumption|].
  now rewrite size_align.
Qed.

Lemma scalar_tiled {A : Type} s (c : A) :
  tile (align [] s) s [c] = repeat c (size s).
Proof.
  unfold align. rewrite app_nil_r. simpl length. rewrite Nat.sub_0_r.
  rewrite <- (tile_const c (stretches_ones s)). now rewrite size_ones.
Qed.

Lemma dtype_eqb_refl d : dtype_eqb d d = true.
Proof.
  now destruct d.
Qed.

Lemma dtype_eqb_eq a b : dtype_eqb a b = true <-> a = b.
Proof.
  destruct a, b; simpl; split; intros H; try reflexivity; discriminate H.
Qed.

Section Binop.

Context {A B C : Type}.

Lemma binop_same d (f : A -> B -> C) (a : Tensor A) (b : Tensor B) :
  Tensor.shape a = Tensor.shape b -> wf a -> wf b ->
  Tensor.dtype a = Tensor.dtype b ->
  binop d f a b
  = Ok (mkTensor d (Tensor.shape a) (map2 f (Tensor.data a) (Tensor.data b))).
Proof.
  intros E Ha Hb Hd. unfold binop. rewrite Hd, dtype_eqb_refl.
  rewrite E, broadcast_shape_same.
  rewrite (broadcast_to_same Hb), <- E, (broadcast_to_same Ha). reflexivity.
Qed.

Lemma binop_const_l d (f : A -> B -> C) dc c (b : Tensor B) :
  wf b -> dc = Tensor.dtype b ->
  binop d f (constant dc c) b
  = Ok (mkTensor d (Tensor.shape b) (map (f c) (Tensor.data b))).
Proof.
  intros Hb ->. unfold binop. simpl Tensor.dtype at 1.
  rewrite dtype_eqb_refl. simpl Tensor.shape at 1.
  rewrite broadcast_shape_nil_l, broadcast_to_same by assumption.
  simpl. rewrite scalar_tiled, <- Hb, map2_repeat_l. reflexivity.
Qed.

Lemma binop_const_r d (f : A -> B -> C) dc c (a : Tensor A) :
  wf a -> dc = Tensor.dtype a ->
  binop d f a (constant dc c)
  = Ok (mkTensor d (Tensor.shape a) (map (fun x => f x c) (Tensor.data a))).
Proof.
  intros Ha ->. unfold binop. simpl Tensor.dtype at 2.
  rewrite dtype_eqb_refl. simpl Tensor.shape at 2.
  rewrite broadcast_shape_nil_r, broadcast_to_same by assumption.
  simpl. rewrite scalar_tiled, <- Ha, map2_repeat_r. reflexivity.
Qed.

(** Operands of different element types are refused, whatever their
    shapes. *)
Lemma binop_mismatch d (f : A -> B -> C) (a : Tensor A) (b : Tensor B) :
  Tensor.dtype a <> Tensor.dtype b ->
  binop d f a b
  = Raise (TypeError "Input y has a type that does not match argument x").
Proof.
  intros H. unfold binop.
  destruct (dtype_eqb (Tensor.dtype a) (Tensor.dtype b)) eqn:E;
    [|reflexivity].
  apply dtype_eqb_eq in E. contradiction.
Qed.

End Binop.

Lemma wf_vector {A : Type} d (data : list A) :
  wf (mkTensor d [length data] data).
Proof.
  unfold wf. simpl. lia.
Qed.

Lemma unop_wf {A B : Type} (f : A -> B) (a : Tensor A) : wf a -> wf (unop f a).
Proof.
  unfold wf. simpl. now rewrite length_map.
Qed.

Lemma mul_one_l x : FP.mul (Fin 1) x = x.
Proof.
  destruct x; simpl; try reflexivity;
    try (unfold FP.scale_inf; destruct (Rlt_dec 0 1); [reflexivity | lra]).
  f_equal. lra.
Qed.

(** Multiplying by the ones of another tensor's shape reads the operand at
    the common shape and changes no value. *)
Lemma mul_ones_like (e x : Tensor fp) s :
  broadcast_shape (Tensor.shape e) (Tensor.shape x) = Some s ->
  wf x -> Tensor.dtype e = Tensor.dtype x ->
  math_ops.mul (array_ops.ones_like e) x = Ok (broadcast_to x s).
Proof.
  intros Hs Hx Hd. unfold math_ops.mul, binop.
  change (Tensor.dtype (array_ops.ones_like e)) with (Tensor.dtype e).
  rewrite Hd, dtype_eqb_refl.
  change (Tensor.shape (array_ops.ones_like e)) with (Tensor.shape e).
  rewrite Hs. destruct (broadcast_shape_stretches _ _ Hs) as [He Hx'].
  unfold broadcast_to.
  cbn [Tensor.data Tensor.shape Tensor.dtype array_ops.ones_like].
  rewrite <- (size_align (Tensor.shape e) s), (tile_const _ He).
  pose proof (broadcast_to_length Hx' Hx) as Hlen. simpl in Hlen.
  rewrite <- Hlen, map2_repeat_l.
  rewrite (map_ext _ (fun y => y) mul_one_l), map_id.
  reflexivity.
Qed.

Lemma map2_diag {A B C D : Type} (f : B -> C -> D) (g : A -> B) (h : A -> C) l :
  map2 f (map g l) (map h l) = map (fun x => f (g x) (h x)) l.
Proof.
  unfold map2. induction l as [|x l IH]; simpl; [reflexivity|].
  now rewrite IH.
Qed.

Lemma map2_map_snd {A B B' C : Type} (f : A -> B' -> C) (g : B -> B') xs ys :
  map2 f xs (map g ys) = map2 (fun x y => f x (g y)) xs ys.
Proof.
  unfold map2. revert ys.
  induction xs as [|x xs IH]; intros [|y ys]; simpl; try reflexivity.
  now rewrite IH.
Qed.

Lemma map_map2 {A B C D : Type} (h : C -> D) (f : A -> B -> C) xs ys :
  map h (map2 f xs ys) = map2 (fun x y => h (f x y)) xs ys.
Proof.
  unfold map2. now rewrite map_map.
Qed.

Lemma forallb_map {A B : Type} (f : B -> bool) (g : A -> B) l :
  forallb f (map g l) = forallb (fun x => f (g x)) l.
Proof.
  induction l as [|x l IH]; simpl; [reflexivity|]. now rewrite IH.
Qed.

(** ** What the constructor stores *)

Lemma init_logits l d s ss nm :
  wf l ->
  Bernoulli.__init__ (Some l) None d s ss nm = Ok (from_logits l d s ss nm).
Proof.
  intros H. unfold Bernoulli.__init__, Bernoulli.finish, math_ops.sub.
  rewrite binop_const_l by (reflexivity || now apply unop_wf).
  reflexivity.
Qed.

Lemma assert_le_const_r prob c :
  wf prob ->
  check_ops.assert_less_equal prob (constant float32 c)
  = if dtype_eqb (Tensor.dtype prob) float32 then
      if forallb (fun x => FP.leb x c) (Tensor.data prob) then Ok tt
      else Raise (InvalidArgumentError
                    "Condition x <= y did not hold element-wise")
    else Raise (TypeError "Input y has a type that does not match argument x").
Proof.
  intros H. unfold check_ops.assert_less_equal, math_ops.less_equal.
  destruct (dtype_eqb (Tensor.dtype prob) float32) eqn:E.
  - apply dtype_eqb_eq in E.
    rewrite binop_const_r by (assumption || now symmetry). cbn [bind].
    unfold math_ops.reduce_all. cbn [Tensor.data].
    rewrite forallb_map. reflexivity.
  - rewrite binop_mismatch; [reflexivity|].
    intros E'. simpl in E'. rewrite E' in E. discriminate E.
Qed.

Lemma assert_le_const_l prob c :
  wf prob ->
  check_ops.assert_less_equal (constant float32 c) prob
  = if dtype_eqb (Tensor.dtype prob) float32 then
      if forallb (fun x => FP.leb c x) (Tensor.data prob) then Ok tt
      else Raise (InvalidArgumentError
                    "Condition x <= y did not hold element-wise")
    else Raise (TypeError "Input y has a type that does not match argument x").
Proof.
  intros H. unfold check_ops.assert_less_equal, math_ops.less_equal.
  destruct (dtype_eqb (Tensor.dtype prob) float32) eqn:E.
  - apply dtype_eqb_eq in E.
    rewrite binop_const_l by (assumption || now symmetry). cbn [bind].
    unfold math_ops.reduce_all. cbn [Tensor.data].
    rewrite forallb_map. reflexivity.
  - rewrite binop_mismatch; [reflexivity|].
    intros E'. simpl in E'. rewrite <- E' in E. discriminate E.
Qed.

(** The log-odds of a probability tensor, as the constructor computes them. *)
Lemma logit_tensor prob :
  wf prob ->
  (one_minus_p <- math_ops.sub (constant (Tensor.dtype prob) (Fin 1)) prob ;;
   math_ops.sub (math_ops.log prob) (math_ops.log one_minus_p))
  = Ok (unop logit prob).
Proof.
  intros H. unfold math_ops.sub.
  rewrite binop_const_l by (assumption || reflexivity).
  cbn [bind].
  rewrite binop_same;
    [| reflexivity | now apply unop_wf
     | unfold wf; simpl; rewrite !length_map; exact H | reflexivity].
  unfold math_ops.log, unop, logit.
  cbn [Tensor.data Tensor.shape Tensor.dtype].
  rewrite map_map, map2_diag. reflexivity.
Qed.

Lemma init_p prob d s ss nm :
  wf prob ->
  Bernoulli.__init__ None (Some prob) d s ss nm
  = if s && negb (passes_strict prob)
    then Raise (strict_failure prob)
    else Ok (from_p prob d s ss nm).
Proof.
  intros H.
  assert (E : (one_minus_p <-
                 math_ops.sub (constant (Tensor.dtype prob) (Fin 1)) prob ;;
               logits' <-
                 math_ops.sub (math_ops.log prob) (math_ops.log one_minus_p) ;;
               Bernoulli.finish ss nm d s logits' prob)
              = Ok (from_p prob d s ss nm)).
  { pose proof (logit_tensor H) as L. unfold math_ops.sub in *.
    rewrite binop_const_l in * by (assumption || reflexivity).
    cbn [bind] in *. rewrite L. cbn [bind].
    unfold Bernoulli.finish, math_ops.sub.
    rewrite binop_const_l by (assumption || reflexivity). reflexivity. }
  unfold Bernoulli.__init__, array_ops.identity.
  rewrite assert_le_const_r, assert_le_const_l by assumption.
  unfold passes_strict, strict_failure, in_range.
  destruct s; cbn [andb]; [|cbn [bind]; exact E].
  destruct (dtype_eqb (Tensor.dtype prob) float32); cbn [bind andb negb];
    [|reflexivity].
  destruct (forallb (fun x => FP.leb x (Fin 1)) (Tensor.data prob));
    cbn [bind andb negb]; [|reflexivity].
  destruct (forallb (fun x => FP.leb (Fin 0) x) (Tensor.data prob));
    cbn [bind andb negb]; [exact E | reflexivity].
Qed.

Lemma passes_strict_inv prob :
  passes_strict prob = true ->
  Tensor.dtype prob = float32 /\ in_range prob = true.
Proof.
  unfold passes_strict. intros H. apply andb_true_iff in H.
  destruct H as [Hd Hr]. apply dtype_eqb_eq in Hd. now split.
Qed.

Lemma built_inv self :
  built self ->
  (exists l d s ss nm, wf l /\ self = from_logits l d s ss nm) \/
  (exists prob d s ss nm,
      wf prob /\ self = from_p prob d s ss nm /\
      (s = true -> passes_strict prob = true)).
Proof.
  intros [[l|] [prob|] d s ss nm b Hl Hp H]; simpl in Hl, Hp.
  - discriminate H.
  - rewrite init_logits in H by assumption. inversion H; subst.
    left. now exists l, d, s, ss, nm.
  - rewrite init_p in H by assumption.
    destruct (passes_strict prob) eqn:Hr, s; simpl in H; try discriminate H;
      inversion H; subst; right; exists prob, d; eexists _, ss, nm;
      repeat split; congruence.
  - discriminate H.
Qed.

(** The stored tensors of an instance agree in shape and element type, and
    [q] is [1 - p] position by position. *)
Lemma built_layout self :
  built self ->
  wf (Bernoulli.logits self) /\ wf (Bernoulli.p self) /\
  Tensor.shape (Bernoulli.p self) = Tensor.shape (Bernoulli.logits self) /\
  Tensor.dtype (Bernoulli.p self) = Tensor.dtype (Bernoulli.logits self) /\
  Bernoulli.q self = unop (FP.sub (Fin 1)) (Bernoulli.p self) /\
  Bernoulli.batch_shape self = array_ops.shape (Bernoulli.logits self).
Proof.
  intros H. destruct (built_inv H) as
    [(l & d & s & ss & nm & Hw & ->) | (prob & d & s & ss & nm & Hw & -> & _)];
    unfold from_logits, from_p, Bernoulli.logits, Bernoulli.p, Bernoulli.q,
      Bernoulli.batch_shape, array_ops.identity; simpl;
    repeat split; try assumption; try (now apply unop_wf).
Qed.

(** ** The constructor's argument check *)

(** C2. Passing both a probability and log-odds, or neither, raises
    ValueError; passing exactly one of them never raises a ValueError. *)
Theorem init_exactly_one_parameter :
  (forall l prob d s ss nm,
      Bernoulli.__init__ (Some l) (Some prob) d s ss nm
      = Raise (ValueError "Must pass either p or logits, not both.")) /\
  (forall d s ss nm,
      Bernoulli.__init__ None None d s ss nm
      = Raise (ValueError "Must pass p or logits.")) /\
  (forall l d s ss nm msg,
      Bernoulli.__init__ (Some l) None d s ss nm <> Raise (ValueError msg)) /\
  (forall prob d s ss nm msg,
      Bernoulli.__init__ None (Some prob) d s ss nm <> Raise (ValueError msg)).
Proof.
  repeat split; try reflexivity.
  - intros l d s ss nm msg.
    unfold Bernoulli.__init__, Bernoulli.finish, math_ops.sub, binop.
    cbn [Tensor.shape Tensor.dtype constant].
    rewrite dtype_eqb_refl, broadcast_shape_nil_l.
    discriminate.
  - intros prob d s ss nm msg.
    assert (E : forall k : Tensor fp -> result Bernoulli.t,
               (forall t, k t <> Raise (ValueError msg)) ->
               (one_minus_p <-
                  math_ops.sub (constant (Tensor.dtype prob) (Fin 1)) prob ;;
                logits' <-
                  math_ops.sub (math_ops.log prob) (math_ops.log one_minus_p) ;;
                k logits')
               <> Raise (ValueError msg)).
    { intros k Hk. unfold math_ops.sub, binop.
      cbn [Tensor.shape Tensor.dtype constant math_ops.log unop].
      rewrite dtype_eqb_refl, broadcast_shape_nil_l. cbn [bind].
      cbn [Tensor.shape Tensor.dtype].
      rewrite dtype_eqb_refl, broadcast_shape_same. cbn [bind]. apply Hk. }
    assert (F : forall t,
               Bernoulli.finish ss nm d s t prob <> Raise (ValueError msg)).
    { intros t. unfold Bernoulli.finish, math_ops.sub, binop.
      cbn [Tensor.shape Tensor.dtype constant].
      rewrite dtype_eqb_refl, broadcast_shape_nil_l. discriminate. }
    unfold Bernoulli.__init__, array_ops.identity.
    destruct s; cbn [bind]; [|now apply E].
    unfold check_ops.assert_less_equal, math_ops.less_equal, binop.
    cbn [Tensor.shape Tensor.dtype constant].
    rewrite broadcast_shape_nil_l, broadcast_shape_nil_r.
    destruct (dtype_eqb (Tensor.dtype prob) float32); cbn [bind];
      [|discriminate].
    destruct (math_ops.reduce_all _); cbn [bind]; [|discriminate].
    destruct (dtype_eqb float32 (Tensor.dtype prob)); cbn [bind];
      [|discriminate].
    destruct (math_ops.reduce_all _); cbn [bind]; [|discriminate].
    now apply E.
Qed.

(** ** Real-number facts behind the formulas *)

Section RealFacts.

Local Open Scope R_scope.

Lemma Rsigmoid_range r : 0 < FP.Rsigmoid r < 1.
Proof.
  unfold FP.Rsigmoid. pose proof (exp_pos (- r)) as He.
  split.
  - apply Rinv_0_lt_compat. lra.
  - rewrite <- Rinv_1 at 2. apply Rinv_lt_contravar; lra.
Qed.

Lemma ln_Rsigmoid r : ln (FP.Rsigmoid r) = - ln (1 + exp (- r)).
Proof.
  unfold FP.Rsigmoid. pose proof (exp_pos (- r)). apply ln_Rinv. lra.
Qed.

Lemma ln_one_minus_Rsigmoid r :
  ln (1 - FP.Rsigmoid r) = - r - ln (1 + exp (- r)).
Proof.
  unfold FP.Rsigmoid. pose proof (exp_pos (- r)) as He.
  replace (1 - / (1 + exp (- r))) with (exp (- r) * / (1 + exp (- r)))
    by (field; lra).
  rewrite ln_mult, ln_exp, ln_Rinv; try lra.
  apply Rinv_0_lt_compat. lra.
Qed.

Lemma Rsigmoid_logit r :
  0 < r < 1 -> FP.Rsigmoid (ln r - ln (1 - r)) = r.
Proof.
  intros [H0 H1]. unfold FP.Rsigmoid.
  replace (- (ln r - ln (1 - r))) with (ln (1 - r) + - ln r) by lra.
  rewrite exp_plus, exp_Ropp, !exp_ln by lra.
  field. lra.
Qed.

Lemma variance_bounds r :
  0 <= r <= 1 ->
  0 <= (1 - r) * r <= 1 / 4 /\ ((1 - r) * r = 1 / 4 <-> r = 1 / 2).
Proof.
  intros [H0 H1].
  pose proof (Rle_0_sqr (r - 1 / 2)) as Hsq. unfold Rsqr in Hsq.
  split; [split; nra|]. split.
  - intros E. assert (Hz : Rsqr (r - 1 / 2) = 0) by (unfold Rsqr; lra).
    apply Rsqr_0_uniq in Hz. lra.
  - intros ->. lra.
Qed.

End RealFacts.

(** ** The formulas at one batch position *)

(** Settles the case analyses on the sign of a real in the goal. *)
Ltac sign_cases :=
  repeat match goal with
         | |- context [Rlt_dec ?a ?b] => destruct (Rlt_dec a b); try lra
         | |- context [Rle_dec ?a ?b] => destruct (Rle_dec a b); try lra
         | |- context [Req_dec_T ?a ?b] => destruct (Req_dec_T a b); try lra
         end.

Lemma in_unit_inv x :
  in_unit x -> exists r, x = Fin r /\ (0 <= r <= 1)%R.
Proof.
  intros [H0 H1]. destruct x as [| | |r]; simpl in H0, H1; try discriminate.
  exists r. split; [reflexivity|].
  destruct (Rle_dec 0 r), (Rle_dec r 1); try discriminate. lra.
Qed.

Lemma in_unit_intro r : (0 <= r <= 1)%R -> in_unit (Fin r).
Proof.
  intros H. split; simpl; sign_cases; reflexivity.
Qed.

Lemma in_range_spec prob :
  in_range prob = true <-> Forall in_unit (Tensor.data prob).
Proof.
  unfold in_range. rewrite andb_true_iff, !forallb_forall, Forall_forall.
  unfold in_unit. firstorder.
Qed.

Lemma sigmoid_in_unit x : x <> NaN -> in_unit (FP.sigmoid x).
Proof.
  destruct x as [| | |r]; intros H; try contradiction; simpl;
    apply in_unit_intro; try lra.
  pose proof (Rsigmoid_range r). lra.
Qed.

Lemma logit_sigmoid x : logit (FP.sigmoid x) = x.
Proof.
  unfold logit. destruct x as [| | |r]; simpl.
  - reflexivity.
  - sign_cases. simpl. reflexivity.
  - sign_cases. simpl. sign_cases. reflexivity.
  - pose proof (Rsigmoid_range r) as Hs. sign_cases. simpl. f_equal.
    replace (1 + - FP.Rsigmoid r)%R with (1 - FP.Rsigmoid r)%R by lra.
    rewrite ln_Rsigmoid, ln_one_minus_Rsigmoid. lra.
Qed.

Lemma sigmoid_logit x : in_unit x -> FP.sigmoid (logit x) = x.
Proof.
  intros H. destruct (in_unit_inv H) as (r & -> & Hr).
  unfold logit. simpl.
  destruct (Req_dec_T r 0) as [-> | H0]; [|destruct (Req_dec_T r 1) as [-> | H1]].
  - sign_cases. simpl. reflexivity.
  - sign_cases. simpl. sign_cases. reflexivity.
  - sign_cases. simpl. f_equal.
    replace (ln r + - ln (1 + - r))%R with (ln r - ln (1 - r))%R
      by (unfold Rminus; reflexivity).
    apply Rsigmoid_logit. lra.
Qed.

Lemma entropy_at_finite r :
  entropy_at (Fin r) = Fin (binary_entropy (FP.Rsigmoid r)).
Proof.
  unfold entropy_at, binary_entropy. simpl.
  pose proof (exp_pos (- r)) as He. sign_cases. simpl. f_equal.
  rewrite ln_Rsigmoid, ln_one_minus_Rsigmoid.
  replace (exp (- r) + 1)%R with (1 + exp (- r))%R by lra. lra.
Qed.

Lemma map2_map_l {A B C : Type} (f : B -> A -> C) (g : A -> B) l :
  map2 f (map g l) l = map (fun x => f (g x) x) l.
Proof.
  rewrite <- (map_id l) at 2. apply map2_diag.
Qed.

Lemma map2_map_r {A B C : Type} (f : A -> B -> C) (g : A -> B) l :
  map2 f l (map g l) = map (fun x => f x (g x)) l.
Proof.
  rewrite <- (map_id l) at 1. apply map2_diag.
Qed.

Lemma map_nth_lt {A B : Type} (f : A -> B) l i d d' :
  i < length l -> nth i (map f l) d = f (nth i l d').
Proof.
  intros H. rewrite (nth_indep _ d (f d')) by now rewrite length_map.
  apply map_nth.
Qed.

Lemma tensor_eta {A : Type} (t : Tensor A) :
  mkTensor (Tensor.dtype t) (Tensor.shape t) (Tensor.data t) = t.
Proof.
  now destruct t.
Qed.

Ltac solve_wf :=
  unfold wf, math_ops.log, math_ops.sigmoid, math_ops.exp, math_ops.neg, unop
    in *;
  cbn [Tensor.data Tensor.shape] in *; rewrite ?length_map; assumption.

(** ** Range validation *)

Lemma in_range_half : in_range p_half = true.
Proof.
  apply in_range_spec. repeat constructor; simpl; sign_cases; reflexivity.
Qed.

Lemma passes_half : passes_strict p_half = true.
Proof.
  unfold passes_strict. now rewrite in_range_half.
Qed.

Lemma passes_endpoints : passes_strict p_endpoints = true.
Proof.
  unfold passes_strict. simpl. apply in_range_spec.
  repeat constructor; simpl; sign_cases; reflexivity.
Qed.

Lemma not_in_range prob :
  (exists x, In x (Tensor.data prob) /\ ~ in_unit x) -> in_range prob = false.
Proof.
  intros (x & Hin & Hx). destruct (in_range prob) eqn:Hr; [|reflexivity].
  apply in_range_spec in Hr. rewrite Forall_forall in Hr.
  destruct Hx. now apply Hr.
Qed.

(** A 32-bit probability with an entry outside [0, 1] is refused by a strict
    construction with a validation failure; a non-strict construction
    accepts any probability unchecked and [mean] hands it back unchanged. *)
Lemma strict_validates_float32 prob d ss nm :
  wf prob -> Tensor.dtype prob = float32 ->
  (exists x, In x (Tensor.data prob) /\ ~ in_unit x) ->
  (exists msg,
      Bernoulli.__init__ None (Some prob) d true ss nm
      = Raise (InvalidArgumentError msg)) /\
  (exists self,
      Bernoulli.__init__ None (Some prob) d false ss nm = Ok self /\
      Bernoulli.mean self = prob).
Proof.
  intros Hw Hd Hx. rewrite !init_p by assumption.
  unfold passes_strict, strict_failure.
  rewrite (not_in_range _ Hx), Hd. simpl. split; [eauto|].
  eexists. split; reflexivity.
Qed.

(** C3. The range check of a strict construction compares the probability
    with 32-bit constants.  The probability 3/2 in double precision
    therefore fails a strict construction with a TypeError and not with the
    validation failure (which the same probability in single precision
    gets), and so does every double-precision probability, in range or
    not; without [strict] the construction succeeds and [mean] returns 3/2
    unchanged. *)
Theorem strict_check_is_float32 :
  (forall d ss nm,
      exists msg,
        Bernoulli.__init__ None (Some p_three_halves_double) d true ss nm
        = Raise (TypeError msg)) /\
  (forall d ss nm,
      exists msg,
        Bernoulli.__init__ None (Some p_three_halves) d true ss nm
        = Raise (InvalidArgumentError msg)) /\
  (forall d ss nm data,
      exists msg,
        Bernoulli.__init__ None (Some (mkTensor float64 [length data] data))
          d true ss nm
        = Raise (TypeError msg)) /\
  (forall d ss nm,
      exists self,
        Bernoulli.__init__ None (Some p_three_halves_double) d false ss nm
        = Ok self /\
        Bernoulli.mean self = p_three_halves_double).
Proof.
  split; [|split; [|split]]; intros d ss nm.
  - rewrite init_p by reflexivity. unfold strict_failure. simpl. eauto.
  - apply (@strict_validates_float32 p_three_halves d ss nm);
      [reflexivity | reflexivity |].
    exists (Fin (3 / 2)). split; [now left|].
    intros [_ H]. simpl in H.
    destruct (Rle_dec (3 / 2) 1); [lra | discriminate].
  - intros data. rewrite init_p by apply wf_vector.
    unfold strict_failure. simpl. eauto.
  - rewrite init_p by reflexivity. simpl. eexists. split; reflexivity.
Qed.

(** ** Consistency of the two parameterizations *)

Lemma built_three_halves :
  built (from_p p_three_halves int32 false true "Bernoulli").
Proof.
  apply (@built_by None (Some p_three_halves) int32 false true "Bernoulli");
    [exact I | reflexivity |].
  now rewrite init_p by reflexivity.
Qed.

Lemma logit_three_halves : logit (Fin (3 / 2)) = NaN.
Proof.
  unfold logit. simpl. sign_cases. simpl. sign_cases. reflexivity.
Qed.

(** C4, as the claim states it, fails: built without the range check from
    the probability 3/2, the instance stores NaN log-odds, whose sigmoid is
    NaN and not 3/2. *)
Lemma consistency_fails_unchecked :
  exists self,
    Bernoulli.__init__ None (Some p_three_halves) int32 false true "Bernoulli"
    = Ok self /\
    built self /\
    Tensor.data (Bernoulli.p self) = [Fin (3 / 2)] /\
    Tensor.data (math_ops.sigmoid (Bernoulli.logits self)) = [NaN] /\
    ~ consistent self.
Proof.
  exists (from_p p_three_halves int32 false true "Bernoulli").
  assert (E : Tensor.data
                (math_ops.sigmoid
                   (Bernoulli.logits
                      (from_p p_three_halves int32 false true "Bernoulli")))
              = [NaN]).
  { simpl. now rewrite logit_three_halves. }
  split; [now rewrite init_p by reflexivity|].
  split; [exact built_three_halves|].
  split; [reflexivity|].
  split; [exact E|].
  intros [H _]. apply (f_equal (@Tensor.data fp)) in H.
  rewrite E in H. discriminate H.
Qed.

(** C4, amended. Each parameterization is derived from the supplied one by
    the stated formula: an instance built from log-odds stores
    [p = sigmoid logits], and an instance built from a probability stores
    [logits = log p - log (1 - p)].  For a probability whose entries all
    lie in [0, 1] (as a strict construction checks) the derived log-odds
    give the probability back, [p = sigmoid logits], exactly in the
    rounding-free arithmetic; in particular
    [sigmoid (log r - log (1 - r)) = r] for every [r] strictly between 0
    and 1.  Nothing is said of recovering supplied log-odds from the stored
    probability. *)
Theorem parameters_consistent lg pr d s ss nm self :
  wf_param lg -> wf_param pr ->
  Bernoulli.__init__ lg pr d s ss nm = Ok self ->
  (forall l, lg = Some l ->
             Bernoulli.logits self = l /\
             Bernoulli.p self = math_ops.sigmoid (Bernoulli.logits self)) /\
  (forall prob,
      pr = Some prob ->
      Bernoulli.p self = prob /\
      (one_minus_p <-
         math_ops.sub (constant (Tensor.dtype prob) (Fin 1)) prob ;;
       math_ops.sub (math_ops.log prob) (math_ops.log one_minus_p))
      = Ok (Bernoulli.logits self) /\
      (s = true \/ Forall in_unit (Tensor.data prob) ->
       Bernoulli.p self = math_ops.sigmoid (Bernoulli.logits self))) /\
  (forall r, (0 < r < 1)%R -> FP.sigmoid (logit (Fin r)) = Fin r).
Proof.
  intros Hl Hp H. split; [|split].
  - intros l ->. destruct pr as [prob|]; [discriminate H|].
    simpl in Hl. rewrite init_logits in H by assumption.
    inversion H; subst. split; reflexivity.
  - intros prob ->. destruct lg as [l|]; [discriminate H|].
    simpl in Hp. rewrite init_p in H by assumption.
    destruct (s && negb (passes_strict prob)) eqn:Hs; [discriminate H|].
    inversion H; subst. clear H.
    unfold from_p, Bernoulli.p, Bernoulli.logits.
    cbn [Bernoulli._p Bernoulli._logits].
    split; [reflexivity|]. split; [now apply logit_tensor|].
    intros Hr.
    assert (Hin : Forall in_unit (Tensor.data prob)).
    { destruct Hr as [-> | Hf]; [|assumption].
      apply in_range_spec. simpl in Hs. apply negb_false_iff in Hs.
      now apply passes_strict_inv in Hs. }
    unfold math_ops.sigmoid, unop.
    cbn [Tensor.data Tensor.shape Tensor.dtype]. rewrite map_map.
    rewrite (map_ext_in _ (fun x => x)), map_id.
    + now rewrite tensor_eta.
    + intros x Hx. apply sigmoid_logit.
      rewrite Forall_forall in Hin. now apply Hin.
  - intros r Hr'. apply sigmoid_logit, in_unit_intro. lra.
Qed.

Lemma parameters_consistent_witness :
  let self := from_p p_half int32 true true "Bernoulli" in
  (forall l, None = Some l ->
             Bernoulli.logits self = l /\
             Bernoulli.p self = math_ops.sigmoid (Bernoulli.logits self)) /\
  (forall prob,
      Some p_half = Some prob ->
      Bernoulli.p self = prob /\
      (one_minus_p <-
         math_ops.sub (constant (Tensor.dtype prob) (Fin 1)) prob ;;
       math_ops.sub (math_ops.log prob) (math_ops.log one_minus_p))
      = Ok (Bernoulli.logits self) /\
      (true = true \/ Forall in_unit (Tensor.data prob) ->
       Bernoulli.p self = math_ops.sigmoid (Bernoulli.logits self))) /\
  (forall r, (0 < r < 1)%R -> FP.sigmoid (logit (Fin r)) = Fin r).
Proof.
  apply (@parameters_consistent None (Some p_half) int32 true true
           "Bernoulli").
  - exact I.
  - reflexivity.
  - rewrite init_p by reflexivity. now rewrite passes_half.
Defined.

(** ** Statistics *)

(** C6. [mode] is 1 where the probability is strictly greater than the
    stored complement and 0 elsewhere, in the sample element type; where the
    probability is 1/2 the comparison is a tie and the mode is 0. *)
Theorem mode_strict_comparison self :
  built self ->
  exists m,
    Bernoulli.mode self = Ok m /\
    Tensor.dtype m = Bernoulli.dtype self /\
    Tensor.shape m = Bernoulli.get_batch_shape self /\
    Tensor.data m
    = map2 (fun x y => if FP.gtb x y then Fin 1 else Fin 0)
        (Tensor.data (Bernoulli.p self)) (Tensor.data (Bernoulli.q self)) /\
    (forall i,
        i < length (Tensor.data (Bernoulli.p self)) ->
        nth i (Tensor.data (Bernoulli.p self)) NaN = Fin (1 / 2) ->
        nth i (Tensor.data m) NaN = Fin 0).
Proof.
  intros H. destruct (built_layout H) as (Hwl & Hwp & Hs & Hd & Hq & _).
  unfold Bernoulli.mode, math_ops.greater.
  rewrite binop_same;
    [| now rewrite Hq | assumption | rewrite Hq; solve_wf | now rewrite Hq].
  cbn [bind]. eexists. split; [reflexivity|].
  unfold math_ops.cast. cbn [Tensor.data Tensor.shape Tensor.dtype].
  split; [reflexivity|]. split; [exact Hs|].
  assert (E : map (cast_elem (Bernoulli.dtype self))
                (map2 FP.gtb (Tensor.data (Bernoulli.p self))
                   (Tensor.data (Bernoulli.q self)))
              = map2 (fun x y => if FP.gtb x y then Fin 1 else Fin 0)
                  (Tensor.data (Bernoulli.p self))
                  (Tensor.data (Bernoulli.q self))).
  { unfold map2. rewrite map_map. reflexivity. }
  split; [exact E|].
  intros i Hi Hp. rewrite E, Hq. cbn [unop Tensor.data].
  rewrite map2_map_r, (map_nth_lt _ _ _ NaN Hi), Hp.
  unfold FP.gtb. simpl. sign_cases. reflexivity.
Qed.

Lemma built_logits_zero :
  built (from_logits logits_zero int32 true true "Bernoulli").
Proof.
  now apply (@built_by (Some logits_zero) None int32 true true "Bernoulli").
Qed.

Lemma mode_strict_comparison_witness :
  exists m,
    Bernoulli.mode (from_logits logits_zero int32 true true "Bernoulli")
    = Ok m /\
    Tensor.dtype m = int32 /\
    Tensor.shape m = [1] /\
    Tensor.data m
    = map2 (fun x y => if FP.gtb x y then Fin 1 else Fin 0)
        [FP.sigmoid (Fin 0)] [FP.sub (Fin 1) (FP.sigmoid (Fin 0))] /\
    (forall i,
        i < 1 ->
        nth i [FP.sigmoid (Fin 0)] NaN = Fin (1 / 2) ->
        nth i (Tensor.data m) NaN = Fin 0).
Proof.
  exact (@mode_strict_comparison _ built_logits_zero).
Defined.

(** C7. [entropy] is, position by position, the formula
    [- logits * (sigmoid logits - 1) + log (exp (- logits) + 1)]; at finite
    log-odds [x] this is the binary entropy of the probability [sigmoid x]. *)
Theorem entropy_closed_form self :
  built self ->
  Bernoulli.entropy self = Ok (unop entropy_at (Bernoulli.logits self)) /\
  (forall r, entropy_at (Fin r) = Fin (binary_entropy (FP.Rsigmoid r))).
Proof.
  intros H. destruct (built_layout H) as (Hw & _).
  split; [|exact entropy_at_finite].
  unfold Bernoulli.entropy, math_ops.sub, math_ops.mul, math_ops.add.
  rewrite !binop_const_r by (reflexivity || solve_wf). cbn [bind].
  rewrite binop_same; [| reflexivity | solve_wf | solve_wf | reflexivity]. cbn [bind].
  unfold math_ops.sigmoid, math_ops.exp, math_ops.neg, math_ops.log, unop,
    entropy_at.
  cbn [Tensor.data Tensor.shape Tensor.dtype].
  rewrite !map_map, map2_diag.
  rewrite binop_same; [| reflexivity | solve_wf | solve_wf | reflexivity].
  cbn [Tensor.data Tensor.shape Tensor.dtype].
  rewrite map2_diag. reflexivity.
Qed.

Lemma entropy_closed_form_witness :
  Bernoulli.entropy (from_logits logits_zero int32 true true "Bernoulli")
  = Ok (unop entropy_at logits_zero) /\
  (forall r, entropy_at (Fin r) = Fin (binary_entropy (FP.Rsigmoid r))).
Proof.
  exact (@entropy_closed_form _ built_logits_zero).
Defined.

(** C8, as the claim states it, fails: the instance built without the range
    check from the probability 3/2 has variance [(1 - 3/2) * 3/2], which is
    negative. *)
Lemma variance_negative_unchecked :
  exists self v,
    Bernoulli.__init__ None (Some p_three_halves) int32 false true "Bernoulli"
    = Ok self /\
    Bernoulli.variance self = Ok v /\
    Tensor.data v = [Fin ((1 + - (3 / 2)) * (3 / 2))] /\
    FP.leb (Fin 0) (nth 0 (Tensor.data v) NaN) = false.
Proof.
  exists (from_p p_three_halves int32 false true "Bernoulli").
  eexists. split; [now rewrite init_p by reflexivity|].
  split; [reflexivity|]. split; [reflexivity|].
  simpl. destruct (Rle_dec 0 ((1 + - (3 / 2)) * (3 / 2))); [lra | reflexivity].
Qed.

(** C8, amended. At every batch position where the probability lies in
    [0, 1] the variance [q * p] lies between 0 and 1/4, and it is 1/4 where
    the probability is 1/2; that it is 1/4 only there is not stated, since
    products of neighbouring probabilities round to 1/4 as well.  The
    probability lies in [0, 1] at every position of an instance built
    strictly from a probability, and at every position of an instance built
    from log-odds that are not NaN there. *)
Theorem variance_bounded lg pr d s ss nm self :
  wf_param lg -> wf_param pr ->
  Bernoulli.__init__ lg pr d s ss nm = Ok self ->
  exists v,
    Bernoulli.variance self = Ok v /\
    Tensor.shape v = Bernoulli.get_batch_shape self /\
    length (Tensor.data v) = length (Tensor.data (Bernoulli.p self)) /\
    forall i,
      i < length (Tensor.data (Bernoulli.p self)) ->
      let p_i := nth i (Tensor.data (Bernoulli.p self)) NaN in
      let v_i := nth i (Tensor.data v) NaN in
      (match pr with
       | Some _ => s = true
       | None => nth i (Tensor.data (Bernoulli.logits self)) NaN <> NaN
       end -> in_unit p_i) /\
      (in_unit p_i ->
       FP.leb (Fin 0) v_i = true /\
       FP.leb v_i (Fin (1 / 4)) = true /\
       (p_i = Fin (1 / 2) -> v_i = Fin (1 / 4))).
Proof.
  intros Hl Hp H.
  assert (Hb : built self) by exact (@built_by lg pr d s ss nm self Hl Hp H).
  destruct (built_layout Hb) as (Hwl & Hwp & Hs & Hd & Hq & _).
  unfold Bernoulli.variance, math_ops.mul.
  rewrite binop_same;
    [| now rewrite Hq | rewrite Hq; solve_wf | assumption | now rewrite Hq].
  eexists. split; [reflexivity|]. cbn [Tensor.data Tensor.shape].
  rewrite Hq. cbn [unop Tensor.data Tensor.shape]. rewrite map2_map_l.
  split; [exact Hs|]. split; [apply length_map|].
  intros i Hi. split.
  - destruct lg as [l|], pr as [prob|]; simpl in Hl, Hp;
      try discriminate H.
    + rewrite init_logits in H by assumption. inversion H; subst. clear H.
      unfold from_logits, Bernoulli.p, Bernoulli.logits in *.
      cbn [Bernoulli._p Bernoulli._logits math_ops.sigmoid unop Tensor.data]
        in *.
      rewrite length_map in Hi. rewrite (map_nth_lt _ _ _ NaN Hi).
      apply sigmoid_in_unit.
    + rewrite init_p in H by assumption. intros ->.
      destruct (passes_strict prob) eqn:Hr; [|discriminate H].
      inversion H; subst. clear H.
      apply passes_strict_inv in Hr. destruct Hr as [_ Hr].
      apply in_range_spec in Hr. rewrite Forall_forall in Hr.
      apply Hr, nth_In. exact Hi.
  - intros Hu. rewrite (map_nth_lt _ _ _ NaN Hi).
    destruct (in_unit_inv Hu) as (r & -> & Hr).
    destruct (variance_bounds Hr) as ((Hlo & Hhi) & Heq).
    simpl. replace ((1 + - r) * r)%R with ((1 - r) * r)%R by lra.
    split; [destruct (Rle_dec 0 ((1 - r) * r)); [reflexivity | lra]|].
    split; [destruct (Rle_dec ((1 - r) * r) (1 / 4)); [reflexivity | lra]|].
    intros E. f_equal. apply Heq. now inversion E.
Qed.

Lemma variance_bounded_witness :
  exists v,
    Bernoulli.variance (from_p p_half int32 true true "Bernoulli") = Ok v /\
    Tensor.shape v = [1] /\
    length (Tensor.data v) = 1 /\
    forall i,
      i < 1 ->
      let p_i := nth i [Fin (1 / 2)] NaN in
      let v_i := nth i (Tensor.data v) NaN in
      (true = true -> in_unit p_i) /\
      (in_unit p_i ->
       FP.leb (Fin 0) v_i = true /\
       FP.leb v_i (Fin (1 / 4)) = true /\
       (p_i = Fin (1 / 2) -> v_i = Fin (1 / 4))).
Proof.
  apply (@variance_bounded None (Some p_half) int32 true true "Bernoulli").
  - exact I.
  - reflexivity.
  - rewrite init_p by reflexivity. now rewrite passes_half.
Defined.

(** ** Log-mass *)

(** C1. For an event that broadcasts against the batch shape, [log_prob]
    converts the event to the element type of the log-odds, reads both at
    their common shape by multiplying each with the ones of the other's
    shape, and returns the negated stable cross-entropy of the two. *)
Theorem log_prob_negated_cross_entropy xent self event s :
  built self -> wf event ->
  broadcast_shape (Tensor.shape event) (Bernoulli.get_batch_shape self)
  = Some s ->
  let logits := Bernoulli.logits self in
  let event' := math_ops.cast event (Tensor.dtype logits) in
  math_ops.mul (array_ops.ones_like event') logits
  = Ok (broadcast_to logits s) /\
  math_ops.mul (array_ops.ones_like logits) event'
  = Ok (broadcast_to event' s) /\
  Tensor.shape (broadcast_to logits s) = Tensor.shape (broadcast_to event' s) /\
  Bernoulli.log_prob xent self event = log_mass_spec xent self event /\
  Bernoulli.log_prob xent self event
  = Ok (math_ops.neg
          (mkTensor (Tensor.dtype logits) s
             (map2 xent (Tensor.data (broadcast_to logits s))
                        (Tensor.data (broadcast_to event' s))))).
Proof.
  intros Hb He Hs logits event'.
  destruct (built_layout Hb) as (Hwl & _).
  assert (Hwe : wf event') by (unfold wf; simpl; now rewrite length_map).
  assert (H1 : math_ops.mul (array_ops.ones_like event') logits
               = Ok (broadcast_to logits s))
    by now apply mul_ones_like.
  assert (H2 : math_ops.mul (array_ops.ones_like logits) event'
               = Ok (broadcast_to event' s)).
  { apply mul_ones_like; [|assumption|reflexivity].
    rewrite broadcast_shape_comm. exact Hs. }
  assert (H3 : Bernoulli.log_prob xent self event
               = Ok (math_ops.neg
                       (mkTensor (Tensor.dtype logits) s
                          (map2 xent (Tensor.data (broadcast_to logits s))
                             (Tensor.data (broadcast_to event' s)))))).
  { unfold Bernoulli.log_prob. fold logits. fold event'.
    rewrite H1. cbn [bind]. rewrite H2. cbn [bind].
    unfold nn.sigmoid_cross_entropy_with_logits.
    cbn [broadcast_to Tensor.shape Tensor.dtype].
    destruct (list_eq_dec Nat.eq_dec s s); [reflexivity | contradiction]. }
  repeat split; try assumption.
  rewrite H3. unfold log_mass_spec. fold logits. fold event'.
  unfold Bernoulli.get_batch_shape in Hs. fold (Bernoulli.logits self) in Hs.
  fold logits in Hs. rewrite Hs.
  unfold nn.sigmoid_cross_entropy_with_logits.
  cbn [broadcast_to Tensor.shape Tensor.dtype].
  destruct (list_eq_dec Nat.eq_dec s s); [reflexivity | contradiction].
Qed.

Lemma log_prob_negated_cross_entropy_witness :
  let self := from_logits logits_zero int32 true true "Bernoulli" in
  let logits := Bernoulli.logits self in
  let event' := math_ops.cast event_one (Tensor.dtype logits) in
  math_ops.mul (array_ops.ones_like event') logits
  = Ok (broadcast_to logits [1]) /\
  math_ops.mul (array_ops.ones_like logits) event'
  = Ok (broadcast_to event' [1]) /\
  Tensor.shape (broadcast_to logits [1])
  = Tensor.shape (broadcast_to event' [1]) /\
  Bernoulli.log_prob plain_xent self event_one
  = log_mass_spec plain_xent self event_one /\
  Bernoulli.log_prob plain_xent self event_one
  = Ok (math_ops.neg
          (mkTensor (Tensor.dtype logits) [1]
             (map2 plain_xent (Tensor.data (broadcast_to logits [1]))
                (Tensor.data (broadcast_to event' [1]))))).
Proof.
  apply (@log_prob_negated_cross_entropy plain_xent
           (from_logits logits_zero int32 true true "Bernoulli")
           event_one [1]).
  - exact built_logits_zero.
  - reflexivity.
  - reflexivity.
Defined.

(** ** Sampling *)

Lemma to_nat_of_nat_list l : map Z.to_nat (map Z.of_nat l) = l.
Proof.
  rewrite map_map, (map_ext _ (fun x => x) Nat2Z.id). apply map_id.
Qed.

(** The noise of a call: one value per output position, in order, read from
    the stream of the draw. *)
Lemma sample_uniform_eq seeded self n seed w :
  built self ->
  let bs := Bernoulli.get_batch_shape self in
  fst (Bernoulli.sample_uniform seeded self n seed w)
  = mkTensor float32 (n :: bs)
      (map (draw_of seeded seed float32 w) (seq 0 (n * size bs))).
Proof.
  intros Hb bs. destruct (built_layout Hb) as (_ & _ & _ & _ & _ & Hbs).
  unfold Bernoulli.sample_uniform, random_ops.random_uniform. rewrite Hbs.
  unfold array_ops.concat_0, array_ops.expand_dims_0, ops.convert_to_tensor,
    array_ops.shape, constant.
  cbn [Tensor.data Tensor.shape Tensor.dtype app map].
  rewrite Nat2Z.id, to_nat_of_nat_list.
  fold (Bernoulli.get_batch_shape self). fold bs.
  destruct seed; reflexivity.
Qed.

(** The ambient source a call leaves behind. *)
Lemma sample_uniform_snd seeded self n seed w :
  built self ->
  snd (Bernoulli.sample_uniform seeded self n seed w)
  = match seed with
    | Some _ => w
    | None => fun k => w (k + n * size (Bernoulli.get_batch_shape self))
    end.
Proof.
  intros Hb. destruct (built_layout Hb) as (_ & _ & _ & _ & _ & Hbs).
  unfold Bernoulli.sample_uniform, random_ops.random_uniform. rewrite Hbs.
  unfold array_ops.concat_0, array_ops.expand_dims_0, ops.convert_to_tensor,
    array_ops.shape, constant.
  cbn [Tensor.data Tensor.shape Tensor.dtype app map].
  rewrite Nat2Z.id, to_nat_of_nat_list.
  fold (Bernoulli.get_batch_shape self).
  destruct seed; reflexivity.
Qed.

Lemma sample_snd seeded self n seed w :
  snd (Bernoulli.sample seeded self n seed w)
  = snd (Bernoulli.sample_uniform seeded self n seed w).
Proof.
  unfold Bernoulli.sample.
  now destruct (Bernoulli.sample_uniform seeded self n seed w).
Qed.

(** What [sample] returns when the probability is stored in single
    precision, as the noise is. *)
Lemma sample_eq seeded self n seed w :
  built self ->
  Tensor.dtype (Bernoulli.p self) = float32 ->
  let bs := Bernoulli.get_batch_shape self in
  fst (Bernoulli.sample seeded self n seed w)
  = Ok (mkTensor (Bernoulli.dtype self) (n :: bs)
          (thresholded (draw_of seeded seed float32 w) n bs
             (Tensor.data (Bernoulli.p self)))).
Proof.
  intros Hb Hd bs.
  destruct (built_layout Hb) as (Hwl & Hwp & Hs & _).
  pose proof (sample_uniform_eq seeded n seed w Hb) as Hu.
  cbv zeta in Hu. fold bs in Hu.
  assert (Hsp : Tensor.shape (Bernoulli.p self) = bs) by exact Hs.
  assert (Hlp : length (Tensor.data (Bernoulli.p self)) = size bs)
    by (rewrite <- Hsp; exact Hwp).
  unfold Bernoulli.sample.
  destruct (Bernoulli.sample_uniform seeded self n seed w) as [u w'].
  cbn [fst] in *. subst u.
  unfold math_ops.less, binop. cbn [Tensor.shape Tensor.dtype].
  rewrite Hd. cbn [dtype_eqb].
  rewrite Hsp, broadcast_shape_lead. unfold broadcast_to.
  cbn [Tensor.data Tensor.shape bind].
  rewrite Hsp, align_same, align_lead.
  rewrite tile_same by (simpl; now rewrite length_map, length_seq).
  rewrite tile_lead by exact Hlp.
  unfold set_shape, tensor_shape.concatenate, tensor_shape.vector.
  cbn [Tensor.shape app]. fold bs.
  destruct (list_eq_dec Nat.eq_dec (n :: bs) (n :: bs)); [|contradiction].
  cbn [bind]. unfold math_ops.cast, thresholded.
  cbn [Tensor.data Tensor.shape Tensor.dtype].
  now rewrite map_map2.
Qed.

(** What [sample] does when the probability is stored in any other element
    type: the comparison with the 32-bit noise is refused. *)
Lemma sample_type_error seeded self n seed w :
  built self ->
  Tensor.dtype (Bernoulli.p self) <> float32 ->
  fst (Bernoulli.sample seeded self n seed w)
  = Raise (TypeError "Input y has a type that does not match argument x").
Proof.
  intros Hb Hd.
  pose proof (sample_uniform_eq seeded n seed w Hb) as Hu. cbv zeta in Hu.
  unfold Bernoulli.sample.
  destruct (Bernoulli.sample_uniform seeded self n seed w) as [u w'].
  cbn [fst] in *. subst u. unfold math_ops.less.
  rewrite binop_mismatch; [reflexivity|].
  cbn [Tensor.dtype]. congruence.
Qed.

Lemma thresholded_length draw n bs pdata :
  length pdata = size bs ->
  length (thresholded draw n bs pdata) = n * size bs.
Proof.
  intros H. unfold thresholded.
  rewrite map2_length; rewrite length_map, length_seq; [reflexivity|].
  now rewrite flat_map_const_length, H.
Qed.

Lemma thresholded_nth draw n bs pdata i :
  length pdata = size bs ->
  i < n * size bs ->
  nth i (thresholded draw n bs pdata) NaN
  = indicator (FP.ltb (draw i) (nth (i mod size bs) pdata NaN)).
Proof.
  intros Hlp Hi. unfold thresholded.
  rewrite (map2_nth _ _ _ NaN NaN);
    [| now rewrite length_map, length_seq
     | now rewrite flat_map_const_length, Hlp].
  rewrite (map_nth_lt _ _ _ 0) by now rewrite length_seq.
  rewrite seq_nth by assumption.
  rewrite flat_map_const_nth by (rewrite Hlp; exact Hi).
  now rewrite Hlp.
Qed.

Lemma built_p_length self :
  built self ->
  length (Tensor.data (Bernoulli.p self))
  = size (Bernoulli.get_batch_shape self).
Proof.
  intros Hb. destruct (built_layout Hb) as (_ & Hwp & Hs & _).
  unfold Bernoulli.get_batch_shape. fold (Bernoulli.logits self).
  rewrite <- Hs. exact Hwp.
Qed.

Lemma built_logits_double data d s ss nm :
  built (from_logits (mkTensor float64 [length data] data) d s ss nm).
Proof.
  apply (@built_by (Some (mkTensor float64 [length data] data)) None d s ss nm);
    [apply wf_vector | exact I |].
  apply init_logits, wf_vector.
Qed.

(** For an instance whose probability is stored in single precision,
    [sample n] returns a tensor of shape [n :: batch_shape] in the sample
    element type; its noise holds one value of the draw per output
    position, and the output is 1 exactly where that position's noise is
    strictly below the probability of the batch position it falls on, and 0
    elsewhere. *)
Lemma sample_thresholds_noise seeded self n seed w :
  built self ->
  Tensor.dtype (Bernoulli.p self) = float32 ->
  let bs := Bernoulli.get_batch_shape self in
  let u := fst (Bernoulli.sample_uniform seeded self n seed w) in
  exists smp,
    fst (Bernoulli.sample seeded self n seed w) = Ok smp /\
    Tensor.shape smp = n :: bs /\
    Tensor.dtype smp = Bernoulli.dtype self /\
    length (Tensor.data smp) = n * size bs /\
    Tensor.shape u = n :: bs /\
    Tensor.data u = map (draw_of seeded seed float32 w) (seq 0 (n * size bs)) /\
    forall i,
      i < n * size bs ->
      nth i (Tensor.data smp) NaN
      = if FP.ltb (nth i (Tensor.data u) NaN)
             (nth (i mod size bs) (Tensor.data (Bernoulli.p self)) NaN)
        then Fin 1 else Fin 0.
Proof.
  intros Hb Hd bs u.
  pose proof (sample_uniform_eq seeded n seed w Hb) as Hu.
  cbv zeta in Hu. fold bs in Hu. fold u in Hu.
  pose proof (built_p_length Hb) as Hlp. fold bs in Hlp.
  rewrite sample_eq by assumption. fold bs.
  eexists. split; [reflexivity|]. cbn [Tensor.data Tensor.shape Tensor.dtype].
  split; [reflexivity|]. split; [reflexivity|].
  split; [now apply thresholded_length|].
  rewrite Hu. cbn [Tensor.data Tensor.shape].
  split; [reflexivity|]. split; [reflexivity|].
  intros i Hi. rewrite thresholded_nth by assumption.
  rewrite (map_nth_lt _ _ _ 0) by now rewrite length_seq.
  now rewrite seq_nth by assumption.
Qed.

(** C5. The noise of [sample] is always a 32-bit float tensor, so for an
    instance whose parameters are stored in double precision the comparison
    of the noise with the probability is refused: [sample] raises a
    TypeError and returns no tensor, for every count, seed and vector of
    double-precision log-odds. *)
Theorem sample_fails_in_double_precision seeded :
  forall data d s ss nm n seed w,
  exists self msg,
    Bernoulli.__init__ (Some (mkTensor float64 [length data] data)) None
      d s ss nm = Ok self /\
    Tensor.dtype (Bernoulli.p self) = float64 /\
    fst (Bernoulli.sample seeded self n seed w) = Raise (TypeError msg).
Proof.
  intros data d s ss nm n seed w.
  exists (from_logits (mkTensor float64 [length data] data) d s ss nm).
  eexists. split; [apply init_logits, wf_vector|].
  split; [reflexivity|].
  apply sample_type_error; [apply built_logits_double|].
  simpl. discriminate.
Qed.

Lemma indicator_inj b1 b2 : indicator b1 = indicator b2 -> b1 = b2.
Proof.
  destruct b1, b2; simpl; intros H; try reflexivity; inversion H; lra.
Qed.

(** C9. With a seed, [sample] thresholds the stream of that seed against
    the stored probability and nothing else: its output is the same for
    every ambient source of randomness, the call leaves that source
    untouched, and a second call with the same count and seed returns the
    same tensor.  Without a seed the output is thresholded from the ambient
    source, which the call advances by the number of outputs, and two
    sources give the same output exactly when they threshold alike at every
    position. *)
Theorem sample_deterministic_in_seed seeded self n seed :
  built self ->
  Tensor.dtype (Bernoulli.p self) = float32 ->
  let bs := Bernoulli.get_batch_shape self in
  let pdata := Tensor.data (Bernoulli.p self) in
  (forall w,
      Bernoulli.sample seeded self n (Some seed) w
      = (Ok (mkTensor (Bernoulli.dtype self) (n :: bs)
               (thresholded (seeded seed float32) n bs pdata)), w)) /\
  (forall w1 w2,
      fst (Bernoulli.sample seeded self n (Some seed) w1)
      = fst (Bernoulli.sample seeded self n (Some seed) w2)) /\
  (forall w,
      fst (Bernoulli.sample seeded self n (Some seed)
             (snd (Bernoulli.sample seeded self n (Some seed) w)))
      = fst (Bernoulli.sample seeded self n (Some seed) w)) /\
  (forall w,
      Bernoulli.sample seeded self n None w
      = (Ok (mkTensor (Bernoulli.dtype self) (n :: bs)
               (thresholded w n bs pdata)),
         fun k => w (k + n * size bs))) /\
  (forall w1 w2,
      fst (Bernoulli.sample seeded self n None w1)
      = fst (Bernoulli.sample seeded self n None w2)
      <-> forall i, i < n * size bs ->
                    FP.ltb (w1 i) (nth (i mod size bs) pdata NaN)
                    = FP.ltb (w2 i) (nth (i mod size bs) pdata NaN)).
Proof.
  intros Hb Hd bs pdata.
  pose proof (built_p_length Hb) as Hlp. fold bs in Hlp. fold pdata in Hlp.
  assert (Hsome : forall w,
             Bernoulli.sample seeded self n (Some seed) w
             = (Ok (mkTensor (Bernoulli.dtype self) (n :: bs)
                      (thresholded (seeded seed float32) n bs pdata)), w)).
  { intros w. rewrite (surjective_pairing (Bernoulli.sample _ _ _ _ _)).
    rewrite sample_eq, sample_snd, sample_uniform_snd by assumption.
    reflexivity. }
  assert (Hnone : forall w,
             Bernoulli.sample seeded self n None w
             = (Ok (mkTensor (Bernoulli.dtype self) (n :: bs)
                      (thresholded w n bs pdata)),
                fun k => w (k + n * size bs))).
  { intros w. rewrite (surjective_pairing (Bernoulli.sample _ _ _ _ _)).
    rewrite sample_eq, sample_snd, sample_uniform_snd by assumption.
    reflexivity. }
  split; [exact Hsome|]. split; [intros w1 w2; now rewrite !Hsome|].
  split; [intros w; now rewrite !Hsome|]. split; [exact Hnone|].
  intros w1 w2. rewrite !Hnone. cbn [fst]. split.
  - intros E i Hi. inversion E as [E'].
    apply (f_equal (fun l => nth i l NaN)) in E'.
    rewrite !thresholded_nth in E' by assumption.
    now apply indicator_inj.
  - intros E. do 2 f_equal.
    apply (nth_ext _ _ NaN NaN).
    + now rewrite !thresholded_length.
    + intros i Hi. rewrite thresholded_length in Hi by assumption.
      rewrite !thresholded_nth by assumption. now rewrite E.
Qed.

Lemma sample_deterministic_in_seed_witness :
  let self := from_logits logits_three int32 true true "Bernoulli" in
  let bs := Bernoulli.get_batch_shape self in
  let pdata := Tensor.data (Bernoulli.p self) in
  (forall w,
      Bernoulli.sample low_stream self 2 (Some 42%Z) w
      = (Ok (mkTensor (Bernoulli.dtype self) (2 :: bs)
               (thresholded (low_stream 42%Z float32) 2 bs pdata)), w)) /\
  (forall w1 w2,
      fst (Bernoulli.sample low_stream self 2 (Some 42%Z) w1)
      = fst (Bernoulli.sample low_stream self 2 (Some 42%Z) w2)) /\
  (forall w,
      fst (Bernoulli.sample low_stream self 2 (Some 42%Z)
             (snd (Bernoulli.sample low_stream self 2 (Some 42%Z) w)))
      = fst (Bernoulli.sample low_stream self 2 (Some 42%Z) w)) /\
  (forall w,
      Bernoulli.sample low_stream self 2 None w
      = (Ok (mkTensor (Bernoulli.dtype self) (2 :: bs)
               (thresholded w 2 bs pdata)),
         fun k => w (k + 2 * size bs))) /\
  (forall w1 w2,
      fst (Bernoulli.sample low_stream self 2 None w1)
      = fst (Bernoulli.sample low_stream self 2 None w2)
      <-> forall i, i < 2 * size bs ->
                    FP.ltb (w1 i) (nth (i mod size bs) pdata NaN)
                    = FP.ltb (w2 i) (nth (i mod size bs) pdata NaN)).
Proof.
  apply (@sample_deterministic_in_seed low_stream
           (from_logits logits_three int32 true true "Bernoulli") 2 42%Z).
  - now apply (@built_by (Some logits_three) None int32 true true "Bernoulli").
  - reflexivity.
Defined.

(** C10. Whatever the element type of the stored parameters, the noise of
    [sample] is the 32-bit float tensor of shape [n :: batch_shape] read
    from the 32-bit stream of the draw, and the comparison is made between
    that noise and the probability as stored: it thresholds when the
    probability is a 32-bit float tensor too, and is refused with a
    TypeError when it is stored in any other element type. *)
Theorem sample_noise_is_float32 seeded self n seed w :
  built self ->
  let bs := Bernoulli.get_batch_shape self in
  let u := fst (Bernoulli.sample_uniform seeded self n seed w) in
  u = mkTensor float32 (n :: bs)
        (map (draw_of seeded seed float32 w) (seq 0 (n * size bs))) /\
  fst (Bernoulli.sample seeded self n seed w)
  = (smp <- math_ops.less u (Bernoulli.p self) ;;
     smp' <- set_shape smp (n :: bs) ;;
     Ok (math_ops.cast smp' (Bernoulli.dtype self))) /\
  (Tensor.dtype (Bernoulli.p self) = float32 ->
   fst (Bernoulli.sample seeded self n seed w)
   = Ok (mkTensor (Bernoulli.dtype self) (n :: bs)
           (map2 (fun x y => indicator (FP.ltb x y)) (Tensor.data u)
              (flat_map (fun _ => Tensor.data (Bernoulli.p self)) (seq 0 n))))) /\
  (Tensor.dtype (Bernoulli.p self) <> float32 ->
   exists msg,
     math_ops.less u (Bernoulli.p self) = Raise (TypeError msg) /\
     fst (Bernoulli.sample seeded self n seed w) = Raise (TypeError msg)).
Proof.
  intros Hb bs u.
  pose proof (sample_uniform_eq seeded n seed w Hb) as Hu.
  cbv zeta in Hu. fold bs in Hu. fold u in Hu.
  split; [exact Hu|]. split; [|split].
  - unfold Bernoulli.sample. fold u.
    destruct (Bernoulli.sample_uniform seeded self n seed w) as [u0 w'].
    reflexivity.
  - intros Hd. rewrite sample_eq by assumption. fold bs.
    rewrite Hu. reflexivity.
  - intros Hd. eexists. split; [|now apply sample_type_error].
    unfold math_ops.less. apply binop_mismatch.
    rewrite Hu. cbn [Tensor.dtype]. congruence.
Qed.

Lemma sample_noise_is_float32_witness :
  let self := from_logits logits_zero_double int32 true true "Bernoulli" in
  let bs := Bernoulli.get_batch_shape self in
  let u := fst (Bernoulli.sample_uniform low_stream self 2 None high_source) in
  u = mkTensor float32 (2 :: bs)
        (map (draw_of low_stream None float32 high_source)
           (seq 0 (2 * size bs))) /\
  fst (Bernoulli.sample low_stream self 2 None high_source)
  = (smp <- math_ops.less u (Bernoulli.p self) ;;
     smp' <- set_shape smp (2 :: bs) ;;
     Ok (math_ops.cast smp' (Bernoulli.dtype self))) /\
  (Tensor.dtype (Bernoulli.p self) = float32 ->
   fst (Bernoulli.sample low_stream self 2 None high_source)
   = Ok (mkTensor (Bernoulli.dtype self) (2 :: bs)
           (map2 (fun x y => indicator (FP.ltb x y)) (Tensor.data u)
              (flat_map (fun _ => Tensor.data (Bernoulli.p self)) (seq 0 2))))) /\
  (Tensor.dtype (Bernoulli.p self) <> float32 ->
   exists msg,
     math_ops.less u (Bernoulli.p self) = Raise (TypeError msg) /\
     fst (Bernoulli.sample low_stream self 2 None high_source)
     = Raise (TypeError msg)).
Proof.
  apply (@sample_noise_is_float32 low_stream
           (from_logits logits_zero_double int32 true true "Bernoulli")
           2 None high_source).
  now apply (@built_by (Some logits_zero_double) None int32 true true
               "Bernoulli").
Defined.

(** * Further properties of the class *)

(** ** What the operations return, in closed form *)

Lemma entropy_eq self :
  built self ->
  Bernoulli.entropy self = Ok (unop entropy_at (Bernoulli.logits self)).
Proof.
  intros H. destruct (built_layout H) as (Hw & _).
  unfold Bernoulli.entropy, math_ops.sub, math_ops.mul, math_ops.add.
  rewrite !binop_const_r by (reflexivity || solve_wf). cbn [bind].
  rewrite binop_same; [| reflexivity | solve_wf | solve_wf | reflexivity]. cbn [bind].
  unfold math_ops.sigmoid, math_ops.exp, math_ops.neg, math_ops.log, unop,
    entropy_at.
  cbn [Tensor.data Tensor.shape Tensor.dtype].
  rewrite !map_map, map2_diag.
  rewrite binop_same; [| reflexivity | solve_wf | solve_wf | reflexivity].
  cbn [Tensor.data Tensor.shape Tensor.dtype].
  rewrite map2_diag. reflexivity.
Qed.

Lemma mode_eq self :
  built self ->
  Bernoulli.mode self
  = Ok (mkTensor (Bernoulli.dtype self) (Bernoulli.get_batch_shape self)
          (map (fun x => indicator (FP.gtb x (FP.sub (Fin 1) x)))
             (Tensor.data (Bernoulli.p self)))).
Proof.
  intros H. destruct (built_layout H) as (Hwl & Hwp & Hs & Hd & Hq & _).
  unfold Bernoulli.mode, math_ops.greater.
  rewrite binop_same;
    [| now rewrite Hq | assumption | rewrite Hq; solve_wf | now rewrite Hq].
  cbn [bind]. unfold math_ops.cast. rewrite Hq.
  cbn [unop Tensor.data Tensor.shape Tensor.dtype].
  rewrite map2_map_r, map_map, Hs. reflexivity.
Qed.

Lemma variance_eq self :
  built self ->
  Bernoulli.variance self
  = Ok (mkTensor (Tensor.dtype (Bernoulli.p self))
          (Bernoulli.get_batch_shape self)
          (map (fun x => FP.mul (FP.sub (Fin 1) x) x)
             (Tensor.data (Bernoulli.p self)))).
Proof.
  intros H. destruct (built_layout H) as (Hwl & Hwp & Hs & Hd & Hq & _).
  unfold Bernoulli.variance, math_ops.mul.
  rewrite binop_same;
    [| now rewrite Hq | rewrite Hq; solve_wf | assumption | now rewrite Hq].
  rewrite Hq. cbn [unop Tensor.data Tensor.shape Tensor.dtype].
  rewrite map2_map_l, Hs. reflexivity.
Qed.

Lemma std_eq self :
  built self ->
  Bernoulli.std self
  = Ok (mkTensor (Tensor.dtype (Bernoulli.p self))
          (Bernoulli.get_batch_shape self)
          (map (fun x => FP.sqrt (FP.mul (FP.sub (Fin 1) x) x))
             (Tensor.data (Bernoulli.p self)))).
Proof.
  intros H. unfold Bernoulli.std. rewrite variance_eq by assumption.
  cbn [bind]. unfold math_ops.sqrt, unop.
  cbn [Tensor.data Tensor.shape Tensor.dtype]. now rewrite map_map.
Qed.

(** ** Construction *)

(** X1. The range check of a strict construction is made against 32-bit
    constants.  From a probability stored in single precision the
    construction succeeds exactly when every entry is a number between 0 and
    1, and a NaN entry is refused with the validation failure; from a
    probability stored in any other element type it raises a TypeError,
    whatever the entries. *)
Theorem strict_accepts_iff_in_range prob d ss nm :
  wf prob ->
  (Tensor.dtype prob = float32 ->
   ((exists self, Bernoulli.__init__ None (Some prob) d true ss nm = Ok self)
    <-> Forall in_unit (Tensor.data prob)) /\
   (In NaN (Tensor.data prob) ->
    exists msg,
      Bernoulli.__init__ None (Some prob) d true ss nm
      = Raise (InvalidArgumentError msg))) /\
  (Tensor.dtype prob <> float32 ->
   exists msg,
     Bernoulli.__init__ None (Some prob) d true ss nm = Raise (TypeError msg)).
Proof.
  intros Hw. rewrite init_p by assumption.
  unfold passes_strict, strict_failure. split.
  - intros ->. cbn [dtype_eqb andb]. rewrite <- in_range_spec.
    destruct (in_range prob) eqn:Hr; simpl.
    + split; [split; eauto|]. intros Hin.
      apply in_range_spec in Hr. rewrite Forall_forall in Hr.
      destruct (Hr _ Hin) as [H0 _]. discriminate H0.
    + split; [|eauto]. split; [intros [self H]|intros H]; discriminate H.
  - intros Hd.
    destruct (dtype_eqb (Tensor.dtype prob) float32) eqn:E.
    + apply dtype_eqb_eq in E. contradiction.
    + simpl. eauto.
Qed.

Lemma strict_accepts_iff_in_range_witness :
  (Tensor.dtype p_endpoints = float32 ->
   ((exists self,
        Bernoulli.__init__ None (Some p_endpoints) int32 true true "Bernoulli"
        = Ok self)
    <-> Forall in_unit [Fin 0%R; Fin 1%R]) /\
   (In NaN [Fin 0%R; Fin 1%R] ->
    exists msg,
      Bernoulli.__init__ None (Some p_endpoints) int32 true true "Bernoulli"
      = Raise (InvalidArgumentError msg))) /\
  (Tensor.dtype p_endpoints <> float32 ->
   exists msg,
     Bernoulli.__init__ None (Some p_endpoints) int32 true true "Bernoulli"
     = Raise (TypeError msg)).
Proof.
  apply (@strict_accepts_iff_in_range p_endpoints int32 true "Bernoulli").
  reflexivity.
Defined.

(** X2. A construction from log-odds never fails and never looks at
    [strict]: whatever the log-odds (infinite and NaN included), the stored
    tensors are the same with and without the flag, and the probability is a
    number between 0 and 1 wherever the log-odds are not NaN. *)
Theorem logits_construction_total l d s ss nm :
  wf l ->
  exists self,
    Bernoulli.__init__ (Some l) None d s ss nm = Ok self /\
    Bernoulli.logits self = l /\
    Bernoulli.strict self = s /\
    (forall self', Bernoulli.__init__ (Some l) None d (negb s) ss nm = Ok self' ->
                   Bernoulli.logits self' = Bernoulli.logits self /\
                   Bernoulli.p self' = Bernoulli.p self /\
                   Bernoulli.q self' = Bernoulli.q self) /\
    (forall i, i < length (Tensor.data l) ->
               nth i (Tensor.data l) NaN <> NaN ->
               in_unit (nth i (Tensor.data (Bernoulli.p self)) NaN)).
Proof.
  intros Hw. exists (from_logits l d s ss nm).
  split; [now apply init_logits|]. split; [reflexivity|].
  split; [reflexivity|]. split.
  - intros self' H. rewrite init_logits in H by assumption.
    inversion H; subst. repeat split.
  - intros i Hi Hn. unfold from_logits, Bernoulli.p.
    cbn [Bernoulli._p math_ops.sigmoid unop Tensor.data].
    rewrite (map_nth_lt _ _ _ NaN Hi). now apply sigmoid_in_unit.
Qed.

Lemma logits_construction_total_witness :
  exists self,
    Bernoulli.__init__ (Some logits_three) None int32 true true "Bernoulli"
    = Ok self /\
    Bernoulli.logits self = logits_three /\
    Bernoulli.strict self = true /\
    (forall self',
        Bernoulli.__init__ (Some logits_three) None int32 (negb true) true
          "Bernoulli" = Ok self' ->
        Bernoulli.logits self' = Bernoulli.logits self /\
        Bernoulli.p self' = Bernoulli.p self /\
        Bernoulli.q self' = Bernoulli.q self) /\
    (forall i, i < length (Tensor.data logits_three) ->
               nth i (Tensor.data logits_three) NaN <> NaN ->
               in_unit (nth i (Tensor.data (Bernoulli.p self)) NaN)).
Proof.
  apply (@logits_construction_total logits_three int32 true true "Bernoulli").
  reflexivity.
Defined.

(** X3. The stored probability and complement add up to 1 wherever the
    probability is a number between 0 and 1 (exactly in the rounding-free
    arithmetic); where the probability is NaN or an infinity their sum is
    NaN. *)
Theorem p_plus_q_is_one self :
  built self ->
  exists t,
    math_ops.add (Bernoulli.p self) (Bernoulli.q self) = Ok t /\
    Tensor.shape t = Bernoulli.get_batch_shape self /\
    forall i,
      i < length (Tensor.data (Bernoulli.p self)) ->
      (in_unit (nth i (Tensor.data (Bernoulli.p self)) NaN) ->
       nth i (Tensor.data t) NaN = Fin 1) /\
      ((forall r, nth i (Tensor.data (Bernoulli.p self)) NaN <> Fin r) ->
       nth i (Tensor.data t) NaN = NaN).
Proof.
  intros H. destruct (built_layout H) as (Hwl & Hwp & Hs & Hd & Hq & _).
  unfold math_ops.add.
  rewrite binop_same;
    [| now rewrite Hq | assumption | rewrite Hq; solve_wf | now rewrite Hq].
  eexists. split; [reflexivity|]. split; [exact Hs|].
  intros i Hi. rewrite Hq. cbn [unop Tensor.data].
  rewrite map2_map_r, (map_nth_lt _ _ _ NaN Hi).
  split.
  - intros Hu. destruct (in_unit_inv Hu) as (r & -> & _).
    simpl. f_equal. lra.
  - destruct (nth i (Tensor.data (Bernoulli.p self)) NaN) as [| | |r];
      try reflexivity.
    intros E. now destruct (E r).
Qed.

Lemma p_plus_q_is_one_witness :
  exists t,
    math_ops.add
      (Bernoulli.p (from_logits logits_three int32 true true "Bernoulli"))
      (Bernoulli.q (from_logits logits_three int32 true true "Bernoulli"))
    = Ok t /\
    Tensor.shape t = [3] /\
    forall i,
      i < 3 ->
      (in_unit (nth i (map FP.sigmoid (Tensor.data logits_three)) NaN) ->
       nth i (Tensor.data t) NaN = Fin 1) /\
      ((forall r, nth i (map FP.sigmoid (Tensor.data logits_three)) NaN <> Fin r)
       -> nth i (Tensor.data t) NaN = NaN).
Proof.
  apply (@p_plus_q_is_one (from_logits logits_three int32 true true "Bernoulli")).
  now apply (@built_by (Some logits_three) None int32 true true "Bernoulli").
Defined.

(** X4. Whichever parameter was supplied, the three stored tensors have the
    shape of that parameter and hold as many elements as the shape
    announces; the run-time batch shape lists the static one, and the event
    shape is the empty vector of the same element type. *)
Theorem shapes_agree lg pr d s ss nm self :
  wf_param lg -> wf_param pr ->
  Bernoulli.__init__ lg pr d s ss nm = Ok self ->
  let bs := Bernoulli.get_batch_shape self in
  (forall t, lg = Some t \/ pr = Some t -> Tensor.shape t = bs) /\
  Tensor.shape (Bernoulli.logits self) = bs /\
  Tensor.shape (Bernoulli.p self) = bs /\
  Tensor.shape (Bernoulli.q self) = bs /\
  wf (Bernoulli.logits self) /\ wf (Bernoulli.p self) /\
  wf (Bernoulli.q self) /\
  map Z.to_nat (Tensor.data (Bernoulli.batch_shape self)) = bs /\
  Tensor.shape (Bernoulli.batch_shape self) = [length bs] /\
  Tensor.data (Bernoulli.event_shape self) = [] /\
  Tensor.shape (Bernoulli.event_shape self) = [0] /\
  Tensor.dtype (Bernoulli.event_shape self)
  = Tensor.dtype (Bernoulli.batch_shape self).
Proof.
  intros Hl Hp H bs.
  assert (Hb : built self) by exact (@built_by lg pr d s ss nm self Hl Hp H).
  destruct (built_layout Hb) as (Hwl & Hwp & Hs & Hd & Hq & Hbs).
  split.
  { intros t [-> | ->]; destruct pr as [prob|] || destruct lg as [l|];
      simpl in Hl, Hp; try discriminate H.
    - rewrite init_logits in H by assumption. subst bs.
      inversion H; subst. reflexivity.
    - rewrite init_p in H by assumption. subst bs.
      destruct (s && negb (passes_strict t)); [discriminate H|].
      inversion H; subst. reflexivity. }
  split; [reflexivity|]. split; [exact Hs|].
  split; [rewrite Hq; exact Hs|].
  split; [assumption|]. split; [assumption|].
  split; [rewrite Hq; now apply unop_wf|].
  assert (He : Tensor.dtype (Bernoulli.event_shape self)
               = Tensor.dtype (Bernoulli.batch_shape self)) by reflexivity.
  rewrite Hbs in *. unfold array_ops.shape. cbn [Tensor.data Tensor.shape].
  split; [apply to_nat_of_nat_list|].
  split; [reflexivity|]. split; [reflexivity|]. split; [reflexivity|].
  exact He.
Qed.

Lemma shapes_agree_witness :
  let self := from_p p_endpoints int32 true true "Bernoulli" in
  let bs := Bernoulli.get_batch_shape self in
  (forall t, None = Some t \/ Some p_endpoints = Some t -> Tensor.shape t = bs) /\
  Tensor.shape (Bernoulli.logits self) = bs /\
  Tensor.shape (Bernoulli.p self) = bs /\
  Tensor.shape (Bernoulli.q self) = bs /\
  wf (Bernoulli.logits self) /\ wf (Bernoulli.p self) /\
  wf (Bernoulli.q self) /\
  map Z.to_nat (Tensor.data (Bernoulli.batch_shape self)) = bs /\
  Tensor.shape (Bernoulli.batch_shape self) = [length bs] /\
  Tensor.data (Bernoulli.event_shape self) = [] /\
  Tensor.shape (Bernoulli.event_shape self) = [0] /\
  Tensor.dtype (Bernoulli.event_shape self)
  = Tensor.dtype (Bernoulli.batch_shape self).
Proof.
  apply (@shapes_agree None (Some p_endpoints) int32 true true "Bernoulli").
  - exact I.
  - reflexivity.
  - rewrite init_p by reflexivity.
    now rewrite passes_endpoints.
Defined.

(** ** Entropy *)

(** X6. A probability of exactly 0 or exactly 1 passes the strict check, is
    stored with log-odds -inf or +inf, and has entropy NaN there (not 0):
    the formula multiplies an infinity by 0, or adds opposite infinities. *)
Theorem entropy_nan_at_certainty prob d s ss nm self :
  wf prob ->
  Bernoulli.__init__ None (Some prob) d s ss nm = Ok self ->
  exists h,
    Bernoulli.entropy self = Ok h /\
    forall i,
      i < length (Tensor.data prob) ->
      (nth i (Tensor.data prob) NaN = Fin 0 ->
       nth i (Tensor.data (Bernoulli.logits self)) NaN = NegInf /\
       nth i (Tensor.data h) NaN = NaN) /\
      (nth i (Tensor.data prob) NaN = Fin 1 ->
       nth i (Tensor.data (Bernoulli.logits self)) NaN = PosInf /\
       nth i (Tensor.data h) NaN = NaN).
Proof.
  intros Hw H.
  assert (Hb : built self)
    by exact (@built_by None (Some prob) d s ss nm self I Hw H).
  rewrite entropy_eq by assumption. eexists. split; [reflexivity|].
  rewrite init_p in H by assumption.
  destruct (s && negb (passes_strict prob)); [discriminate H|].
  inversion H; subst. clear H.
  unfold from_p, Bernoulli.logits.
  cbn [Bernoulli._logits unop Tensor.data].
  intros i Hi. rewrite map_map, !(map_nth_lt _ _ _ NaN Hi).
  split; intros ->; unfold logit, entropy_at;
    repeat (progress (simpl; unfold FP.scale_inf; sign_cases));
    split; reflexivity.
Qed.

Lemma entropy_nan_at_certainty_witness :
  exists h,
    Bernoulli.entropy (from_p p_endpoints int32 true true "Bernoulli") = Ok h /\
    forall i,
      i < 2 ->
      (nth i [Fin 0%R; Fin 1%R] NaN = Fin 0 ->
       nth i (map logit [Fin 0%R; Fin 1%R]) NaN = NegInf /\
       nth i (Tensor.data h) NaN = NaN) /\
      (nth i [Fin 0%R; Fin 1%R] NaN = Fin 1 ->
       nth i (map logit [Fin 0%R; Fin 1%R]) NaN = PosInf /\
       nth i (Tensor.data h) NaN = NaN).
Proof.
  apply (@entropy_nan_at_certainty p_endpoints int32 true true "Bernoulli").
  - reflexivity.
  - rewrite init_p by reflexivity.
    now rewrite passes_endpoints.
Defined.

(** ** Mode *)

Lemma gtb_complement x : FP.gtb x (FP.sub (Fin 1) x) = FP.gtb x (Fin (1 / 2)).
Proof.
  unfold FP.gtb. destruct x as [| | |r]; simpl; try reflexivity.
  destruct (Rlt_dec (1 + - r) r), (Rlt_dec (1 / 2) r); try reflexivity; lra.
Qed.

Lemma Rsigmoid_above_half r : (1 / 2 < FP.Rsigmoid r <-> 0 < r)%R.
Proof.
  unfold FP.Rsigmoid. pose proof (exp_pos (- r)) as He.
  assert (Hs : ((1 + exp (- r)) * / (1 + exp (- r)) = 1)%R)
    by (apply Rinv_r; lra).
  assert (Hp : (0 < / (1 + exp (- r)))%R) by (apply Rinv_0_lt_compat; lra).
  split; intros H.
  - assert (Hlt : (exp (- r) < exp 0)%R) by (rewrite exp_0; nra).
    apply exp_lt_inv in Hlt. lra.
  - assert (Hlt : (exp (- r) < exp 0)%R) by (apply exp_increasing; lra).
    rewrite exp_0 in Hlt. nra.
Qed.

Lemma gtb_sigmoid x : FP.gtb (FP.sigmoid x) (Fin (1 / 2)) = FP.gtb x (Fin 0).
Proof.
  unfold FP.gtb. destruct x as [| | |r]; simpl; try reflexivity;
    try (sign_cases; reflexivity).
  pose proof (Rsigmoid_above_half r) as [H1 H2].
  destruct (Rlt_dec (1 / 2) (FP.Rsigmoid r)), (Rlt_dec 0 r);
    try reflexivity; tauto.
Qed.

(** X7. At every batch position the mode is 1 exactly when the probability
    is strictly greater than 1/2, and 0 otherwise; a NaN probability has
    mode 0. *)
Theorem mode_is_half_threshold self :
  built self ->
  exists m,
    Bernoulli.mode self = Ok m /\
    length (Tensor.data m) = length (Tensor.data (Bernoulli.p self)) /\
    forall i,
      i < length (Tensor.data (Bernoulli.p self)) ->
      nth i (Tensor.data m) NaN
      = indicator (FP.gtb (nth i (Tensor.data (Bernoulli.p self)) NaN)
                     (Fin (1 / 2))) /\
      (nth i (Tensor.data (Bernoulli.p self)) NaN = NaN ->
       nth i (Tensor.data m) NaN = Fin 0).
Proof.
  intros H. rewrite mode_eq by assumption. eexists. split; [reflexivity|].
  cbn [Tensor.data]. split; [apply length_map|].
  intros i Hi. rewrite (map_nth_lt _ _ _ NaN Hi), gtb_complement.
  split; [reflexivity|]. now intros ->.
Qed.

Lemma mode_is_half_threshold_witness :
  exists m,
    Bernoulli.mode (from_logits logits_three int32 true true "Bernoulli")
    = Ok m /\
    length (Tensor.data m) = 3 /\
    forall i,
      i < 3 ->
      nth i (Tensor.data m) NaN
      = indicator
          (FP.gtb (nth i (map FP.sigmoid (Tensor.data logits_three)) NaN)
             (Fin (1 / 2))) /\
      (nth i (map FP.sigmoid (Tensor.data logits_three)) NaN = NaN ->
       nth i (Tensor.data m) NaN = Fin 0).
Proof.
  apply (@mode_is_half_threshold
           (from_logits logits_three int32 true true "Bernoulli")).
  now apply (@built_by (Some logits_three) None int32 true true "Bernoulli").
Defined.

(** X8. For an instance built from log-odds the mode is 0 at every batch
    position whose log-odds are 0 or negative, -inf or NaN, and 1 where they
    are +inf; so the mode is 1 only at positions with positive log-odds. *)
Theorem mode_is_sign_of_logits l d s ss nm self :
  wf l ->
  Bernoulli.__init__ (Some l) None d s ss nm = Ok self ->
  exists m,
    Bernoulli.mode self = Ok m /\
    forall i,
      i < length (Tensor.data l) ->
      let x := nth i (Tensor.data l) NaN in
      let m_i := nth i (Tensor.data m) NaN in
      ((x = NaN \/ x = NegInf \/ exists r, x = Fin r /\ (r <= 0)%R) ->
       m_i = Fin 0) /\
      (x = PosInf -> m_i = Fin 1) /\
      (m_i = Fin 1 -> x = PosInf \/ exists r, x = Fin r /\ (0 < r)%R).
Proof.
  intros Hw H.
  assert (Hb : built self)
    by exact (@built_by (Some l) None d s ss nm self Hw I H).
  rewrite mode_eq by assumption. eexists. split; [reflexivity|].
  rewrite init_logits in H by assumption. inversion H; subst. clear H.
  unfold from_logits, Bernoulli.p.
  cbn [Bernoulli._p math_ops.sigmoid unop Tensor.data].
  intros i Hi. cbv zeta. rewrite map_map, (map_nth_lt _ _ _ NaN Hi).
  rewrite gtb_complement, gtb_sigmoid.
  generalize (nth i (Tensor.data l) NaN). intros x.
  unfold FP.gtb. split; [|split].
  - intros [-> | [-> | (r & -> & Hr)]]; simpl; try reflexivity.
    sign_cases. reflexivity.
  - now intros ->.
  - destruct x as [| | |r]; simpl; try (intros E; inversion E; lra).
    + intros _. now left.
    + destruct (Rlt_dec 0 r); simpl; intros E; [|inversion E; lra].
      right. eauto.
Qed.

Lemma mode_is_sign_of_logits_witness :
  exists m,
    Bernoulli.mode (from_logits logits_three int32 true true "Bernoulli")
    = Ok m /\
    forall i,
      i < 3 ->
      let x := nth i (Tensor.data logits_three) NaN in
      let m_i := nth i (Tensor.data m) NaN in
      ((x = NaN \/ x = NegInf \/ exists r, x = Fin r /\ (r <= 0)%R) ->
       m_i = Fin 0) /\
      (x = PosInf -> m_i = Fin 1) /\
      (m_i = Fin 1 -> x = PosInf \/ exists r, x = Fin r /\ (0 < r)%R).
Proof.
  apply (@mode_is_sign_of_logits logits_three int32 true true "Bernoulli").
  - reflexivity.
  - reflexivity.
Defined.

(** ** Standard deviation *)

(** X9. Where the probability lies in [0, 1] the standard deviation is a
    number between 0 and 1/2 whose square is the variance [(1 - p) * p]. *)
Theorem std_in_range self :
  built self ->
  exists sd v,
    Bernoulli.std self = Ok sd /\
    Bernoulli.variance self = Ok v /\
    Tensor.shape sd = Bernoulli.get_batch_shape self /\
    forall i r,
      i < length (Tensor.data (Bernoulli.p self)) ->
      nth i (Tensor.data (Bernoulli.p self)) NaN = Fin r ->
      (0 <= r <= 1)%R ->
      exists e,
        nth i (Tensor.data sd) NaN = Fin e /\
        (0 <= e <= 1 / 2)%R /\
        nth i (Tensor.data v) NaN = Fin (e * e) /\
        (e * e = (1 - r) * r)%R.
Proof.
  intros H. rewrite std_eq, variance_eq by assumption.
  do 2 eexists. split; [reflexivity|]. split; [reflexivity|].
  split; [reflexivity|]. cbn [Tensor.data].
  intros i r Hi Hr Hu. rewrite !(map_nth_lt _ _ _ NaN Hi), Hr.
  destruct (variance_bounds Hu) as ((Hlo & Hhi) & _).
  assert (E : ((1 + - r) * r = (1 - r) * r)%R) by lra.
  simpl. rewrite E. sign_cases.
  exists (sqrt ((1 - r) * r)).
  pose proof (sqrt_pos ((1 - r) * r)) as Hp.
  pose proof (sqrt_sqrt _ Hlo) as Hsq.
  split; [reflexivity|]. split; [nra|]. split; [now rewrite Hsq | exact Hsq].
Qed.

Lemma std_in_range_witness :
  exists sd v,
    Bernoulli.std (from_p p_half int32 true true "Bernoulli") = Ok sd /\
    Bernoulli.variance (from_p p_half int32 true true "Bernoulli") = Ok v /\
    Tensor.shape sd = [1] /\
    forall i r,
      i < 1 ->
      nth i [Fin (1 / 2)] NaN = Fin r ->
      (0 <= r <= 1)%R ->
      exists e,
        nth i (Tensor.data sd) NaN = Fin e /\
        (0 <= e <= 1 / 2)%R /\
        nth i (Tensor.data v) NaN = Fin (e * e) /\
        (e * e = (1 - r) * r)%R.
Proof.
  apply (@std_in_range (from_p p_half int32 true true "Bernoulli")).
  apply (@built_by None (Some p_half) int32 true true "Bernoulli");
    [exact I | reflexivity |].
  rewrite init_p by reflexivity. now rewrite passes_half.
Defined.

(** X10. Where an instance built without the range check holds a finite
    probability below 0 or above 1, the variance is below 0 and the
    standard deviation is NaN. *)
Theorem std_nan_out_of_range self :
  built self ->
  exists sd v,
    Bernoulli.std self = Ok sd /\
    Bernoulli.variance self = Ok v /\
    forall i r,
      i < length (Tensor.data (Bernoulli.p self)) ->
      nth i (Tensor.data (Bernoulli.p self)) NaN = Fin r ->
      (r < 0 \/ 1 < r)%R ->
      nth i (Tensor.data sd) NaN = NaN /\
      FP.ltb (nth i (Tensor.data v) NaN) (Fin 0) = true.
Proof.
  intros H. rewrite std_eq, variance_eq by assumption.
  do 2 eexists. split; [reflexivity|]. split; [reflexivity|].
  cbn [Tensor.data].
  intros i r Hi Hr Hu. rewrite !(map_nth_lt _ _ _ NaN Hi), Hr.
  assert (Hneg : ((1 + - r) * r < 0)%R) by nra.
  simpl. sign_cases. split; reflexivity.
Qed.

Lemma std_nan_out_of_range_witness :
  exists sd v,
    Bernoulli.std (from_p p_three_halves int32 false true "Bernoulli")
    = Ok sd /\
    Bernoulli.variance (from_p p_three_halves int32 false true "Bernoulli")
    = Ok v /\
    forall i r,
      i < 1 ->
      nth i [Fin (3 / 2)] NaN = Fin r ->
      (r < 0 \/ 1 < r)%R ->
      nth i (Tensor.data sd) NaN = NaN /\
      FP.ltb (nth i (Tensor.data v) NaN) (Fin 0) = true.
Proof.
  exact (@std_nan_out_of_range _ built_three_halves).
Defined.

(** ** Log-mass, by the shape of the event *)

Lemma log_prob_eq xent self event s :
  built self -> wf event ->
  broadcast_shape (Tensor.shape event) (Bernoulli.get_batch_shape self)
  = Some s ->
  let d := Tensor.dtype (Bernoulli.logits self) in
  Bernoulli.log_prob xent self event
  = Ok (mkTensor d s
          (map2 (fun x z => FP.neg (xent x z))
             (Tensor.data (broadcast_to (Bernoulli.logits self) s))
             (Tensor.data (broadcast_to (math_ops.cast event d) s)))).
Proof.
  intros Hb He Hs d.
  destruct (built_layout Hb) as (Hwl & _).
  assert (Hwe : wf (math_ops.cast event d))
    by (unfold wf; simpl; now rewrite length_map).
  unfold Bernoulli.log_prob. fold d.
  rewrite (@mul_ones_like _ _ s) by (assumption || reflexivity).
  cbn [bind].
  rewrite (@mul_ones_like _ _ s);
    [| rewrite broadcast_shape_comm; exact Hs | assumption | reflexivity].
  cbn [bind]. unfold nn.sigmoid_cross_entropy_with_logits.
  cbn [broadcast_to Tensor.shape Tensor.dtype Tensor.data].
  destruct (list_eq_dec Nat.eq_dec s s); [|contradiction].
  cbn [bind]. unfold math_ops.neg, unop.
  cbn [Tensor.shape Tensor.dtype Tensor.data]. now rewrite map_map2.
Qed.

(** X11. [log_prob] succeeds exactly when the shape of the event broadcasts
    against the batch shape; otherwise it raises the ValueError of the
    failed broadcast. *)
Theorem log_prob_fails_iff_incompatible xent self event :
  built self -> wf event ->
  ((exists t, Bernoulli.log_prob xent self event = Ok t) <->
   (exists s, broadcast_shape (Tensor.shape event)
                (Bernoulli.get_batch_shape self) = Some s)) /\
  (broadcast_shape (Tensor.shape event) (Bernoulli.get_batch_shape self)
   = None ->
   Bernoulli.log_prob xent self event
   = Raise (ValueError "Incompatible shapes for broadcasting")).
Proof.
  intros Hb He.
  destruct (broadcast_shape (Tensor.shape event)
              (Bernoulli.get_batch_shape self)) as [s|] eqn:Hs.
  - split; [|discriminate]. rewrite (log_prob_eq xent Hb He Hs).
    split; eauto.
  - assert (E : Bernoulli.log_prob xent self event
                = Raise (ValueError "Incompatible shapes for broadcasting")).
    { unfold Bernoulli.log_prob, math_ops.mul, binop.
      cbn [array_ops.ones_like math_ops.cast Tensor.shape Tensor.dtype].
      rewrite dtype_eqb_refl.
      unfold Bernoulli.get_batch_shape in Hs.
      fold (Bernoulli.logits self) in Hs. now rewrite Hs. }
    split; [|intros _; exact E]. rewrite E.
    split; [intros [t H] | intros [s H]]; discriminate H.
Qed.

Lemma log_prob_fails_iff_incompatible_witness :
  let self := from_logits logits_three int32 true true "Bernoulli" in
  ((exists t, Bernoulli.log_prob plain_xent self event_pair = Ok t) <->
   (exists s, broadcast_shape [2] [3] = Some s)) /\
  (broadcast_shape [2] [3] = None ->
   Bernoulli.log_prob plain_xent self event_pair
   = Raise (ValueError "Incompatible shapes for broadcasting")).
Proof.
  apply (@log_prob_fails_iff_incompatible plain_xent
           (from_logits logits_three int32 true true "Bernoulli") event_pair).
  - now apply (@built_by (Some logits_three) None int32 true true "Bernoulli").
  - reflexivity.
Defined.

(** X12. For an event of the batch shape, [log_prob] is, position by
    position, the negated cross-entropy of the log-odds there against the
    event there, converted to the element type of the log-odds. *)
Theorem log_prob_same_shape xent self event :
  built self -> wf event ->
  Tensor.shape event = Bernoulli.get_batch_shape self ->
  let d := Tensor.dtype (Bernoulli.logits self) in
  Bernoulli.log_prob xent self event
  = Ok (mkTensor d (Bernoulli.get_batch_shape self)
          (map2 (fun x z => FP.neg (xent x (cast_elem d z)))
             (Tensor.data (Bernoulli.logits self)) (Tensor.data event))).
Proof.
  intros Hb He Hs d. destruct (built_layout Hb) as (Hwl & _).
  assert (Hb' : broadcast_shape (Tensor.shape event)
                  (Bernoulli.get_batch_shape self)
                = Some (Bernoulli.get_batch_shape self))
    by (rewrite Hs; apply broadcast_shape_same).
  rewrite (log_prob_eq xent Hb He Hb'). fold d.
  unfold Bernoulli.get_batch_shape at 2.
  fold (Bernoulli.logits self).
  rewrite (broadcast_to_same Hwl).
  unfold Bernoulli.get_batch_shape. fold (Bernoulli.logits self).
  assert (Hc : Tensor.data
                 (broadcast_to (math_ops.cast event d)
                    (Tensor.shape (Bernoulli.logits self)))
               = map (cast_elem d) (Tensor.data event)).
  { replace (Tensor.shape (Bernoulli.logits self))
      with (Tensor.shape (math_ops.cast event d)) by exact Hs.
    apply broadcast_to_same. unfold wf. simpl. now rewrite length_map. }
  rewrite Hc, map2_map_snd. reflexivity.
Qed.

Lemma log_prob_same_shape_witness :
  let self := from_logits logits_three int32 true true "Bernoulli" in
  let d := Tensor.dtype (Bernoulli.logits self) in
  Bernoulli.log_prob plain_xent self event_triple
  = Ok (mkTensor d (Bernoulli.get_batch_shape self)
          (map2 (fun x z => FP.neg (plain_xent x (cast_elem d z)))
             (Tensor.data (Bernoulli.logits self))
             (Tensor.data event_triple))).
Proof.
  apply (@log_prob_same_shape plain_xent
           (from_logits logits_three int32 true true "Bernoulli")
           event_triple).
  - now apply (@built_by (Some logits_three) None int32 true true "Bernoulli").
  - reflexivity.
  - reflexivity.
Defined.

(** X13. A single event without dimensions is scored against every batch
    position: the result has the batch shape and holds, at each position,
    the negated cross-entropy of the log-odds there against that event. *)
Theorem log_prob_scalar_event xent self de z :
  built self ->
  let d := Tensor.dtype (Bernoulli.logits self) in
  Bernoulli.log_prob xent self (mkTensor de [] [z])
  = Ok (mkTensor d (Bernoulli.get_batch_shape self)
          (map (fun x => FP.neg (xent x (cast_elem d z)))
             (Tensor.data (Bernoulli.logits self)))).
Proof.
  intros Hb d. destruct (built_layout Hb) as (Hwl & _).
  assert (He : wf (mkTensor de [] [z])) by reflexivity.
  assert (Hs : broadcast_shape (Tensor.shape (mkTensor de [] [z]))
                 (Bernoulli.get_batch_shape self)
               = Some (Bernoulli.get_batch_shape self))
    by apply broadcast_shape_nil_l.
  rewrite (log_prob_eq xent Hb He Hs). fold d.
  unfold Bernoulli.get_batch_shape. fold (Bernoulli.logits self).
  rewrite (broadcast_to_same Hwl).
  unfold broadcast_to, math_ops.cast.
  cbn [Tensor.data Tensor.shape Tensor.dtype map].
  rewrite scalar_tiled, <- Hwl, map2_repeat_r. reflexivity.
Qed.

Lemma log_prob_scalar_event_witness :
  let self := from_logits logits_three int32 true true "Bernoulli" in
  let d := Tensor.dtype (Bernoulli.logits self) in
  Bernoulli.log_prob plain_xent self (mkTensor int32 [] [1%Z])
  = Ok (mkTensor d (Bernoulli.get_batch_shape self)
          (map (fun x => FP.neg (plain_xent x (cast_elem d 1%Z)))
             (Tensor.data (Bernoulli.logits self)))).
Proof.
  apply (@log_prob_scalar_event plain_xent
           (from_logits logits_three int32 true true "Bernoulli") int32 1%Z).
  now apply (@built_by (Some logits_three) None int32 true true "Bernoulli").
Defined.

(** ** Sampling, outcome by outcome *)

Lemma Forall_map2 {A B C : Type} (P : C -> Prop) (f : A -> B -> C) xs ys :
  (forall x y, P (f x y)) -> Forall P (map2 f xs ys).
Proof.
  intros H. unfold map2. apply Forall_forall. intros c Hc.
  apply in_map_iff in Hc. destruct Hc as ([x y] & <- & _). apply H.
Qed.

(** X14. For an instance whose probability is stored in single precision,
    every element [sample] returns is 0 or 1, whatever the noise and
    whatever the stored probability (out of range, infinite or NaN); there
    are [n] times the batch size of them, and a call with count 0 returns
    the empty tensor of shape [0 :: batch_shape]. *)
Theorem sample_outcomes_binary seeded self n seed w :
  built self ->
  Tensor.dtype (Bernoulli.p self) = float32 ->
  (exists smp,
      fst (Bernoulli.sample seeded self n seed w) = Ok smp /\
      Forall (fun x => x = Fin 0 \/ x = Fin 1) (Tensor.data smp) /\
      length (Tensor.data smp) = n * size (Bernoulli.get_batch_shape self)) /\
  (exists smp,
      fst (Bernoulli.sample seeded self 0 seed w) = Ok smp /\
      Tensor.data smp = [] /\
      Tensor.shape smp = 0 :: Bernoulli.get_batch_shape self).
Proof.
  intros Hb Hd. rewrite !sample_eq by assumption. split.
  - eexists. split; [reflexivity|]. cbn [Tensor.data]. split.
    + apply Forall_map2. intros u x. destruct (FP.ltb u x); simpl; auto.
    + apply thresholded_length. now apply built_p_length.
  - eexists. split; [reflexivity|]. split; reflexivity.
Qed.

Lemma sample_outcomes_binary_witness :
  let self := from_logits logits_three int32 true true "Bernoulli" in
  (exists smp,
      fst (Bernoulli.sample low_stream self 2 None high_source) = Ok smp /\
      Forall (fun x => x = Fin 0 \/ x = Fin 1) (Tensor.data smp) /\
      length (Tensor.data smp) = 2 * size (Bernoulli.get_batch_shape self)) /\
  (exists smp,
      fst (Bernoulli.sample low_stream self 0 None high_source) = Ok smp /\
      Tensor.data smp = [] /\
      Tensor.shape smp = 0 :: Bernoulli.get_batch_shape self).
Proof.
  apply (@sample_outcomes_binary low_stream
           (from_logits logits_three int32 true true "Bernoulli")
           2 None high_source).
  - now apply (@built_by (Some logits_three) None int32 true true "Bernoulli").
  - reflexivity.
Defined.

(** X15. For an instance whose probability is stored in single precision
    and noise in [0, 1), a batch position whose probability is 1 or more
    (or +inf) is sampled as 1 in every replica, and one whose probability
    is 0 or less (or -inf) as 0 in every replica; a NaN probability is
    sampled as 0 whatever the noise. *)
Theorem sample_certain_outcomes seeded self n seed w :
  built self ->
  Tensor.dtype (Bernoulli.p self) = float32 ->
  (forall k, exists u, draw_of seeded seed float32 w k = Fin u /\
                       (0 <= u < 1)%R) ->
  exists smp,
    fst (Bernoulli.sample seeded self n seed w) = Ok smp /\
    forall i,
      i < n * size (Bernoulli.get_batch_shape self) ->
      let x := nth (i mod size (Bernoulli.get_batch_shape self))
                 (Tensor.data (Bernoulli.p self)) NaN in
      ((x = PosInf \/ exists r, x = Fin r /\ (1 <= r)%R) ->
       nth i (Tensor.data smp) NaN = Fin 1) /\
      ((x = NegInf \/ x = NaN \/ exists r, x = Fin r /\ (r <= 0)%R) ->
       nth i (Tensor.data smp) NaN = Fin 0).
Proof.
  intros Hb Hd Hu. rewrite sample_eq by assumption.
  eexists. split; [reflexivity|]. cbn [Tensor.data].
  intros i Hi. cbv zeta.
  rewrite thresholded_nth by (assumption || now apply built_p_length).
  destruct (Hu i) as (u & -> & Hr).
  generalize (nth (i mod size (Bernoulli.get_batch_shape self))
                (Tensor.data (Bernoulli.p self)) NaN).
  intros x. split.
  - intros [-> | (r & -> & H1)]; simpl; [reflexivity|].
    sign_cases. reflexivity.
  - intros [-> | [-> | (r & -> & H0)]]; simpl; try reflexivity.
    sign_cases. reflexivity.
Qed.

Lemma sample_certain_outcomes_witness :
  let self := from_p p_endpoints int32 true true "Bernoulli" in
  exists smp,
    fst (Bernoulli.sample low_stream self 2 (Some 42%Z) high_source) = Ok smp /\
    forall i,
      i < 2 * size (Bernoulli.get_batch_shape self) ->
      let x := nth (i mod size (Bernoulli.get_batch_shape self))
                 (Tensor.data (Bernoulli.p self)) NaN in
      ((x = PosInf \/ exists r, x = Fin r /\ (1 <= r)%R) ->
       nth i (Tensor.data smp) NaN = Fin 1) /\
      ((x = NegInf \/ x = NaN \/ exists r, x = Fin r /\ (r <= 0)%R) ->
       nth i (Tensor.data smp) NaN = Fin 0).
Proof.
  apply (@sample_certain_outcomes low_stream
           (from_p p_endpoints int32 true true "Bernoulli")
           2 (Some 42%Z) high_source).
  - apply (@built_by None (Some p_endpoints) int32 true true "Bernoulli");
      [exact I | reflexivity |].
    rewrite init_p by reflexivity.
    now rewrite passes_endpoints.
  - reflexivity.
  - intros k. exists (1 / 4)%R. split; [reflexivity | lra].
Defined.

Lemma ltb_leb_trans a b c :
  FP.ltb a b = true -> FP.leb b c = true -> FP.ltb a c = true.
Proof.
  destruct a as [| | |x], b as [| | |y], c as [| | |z]; simpl;
    try discriminate; try reflexivity.
  destruct (Rlt_dec x y), (Rle_dec y z), (Rlt_dec x z);
    try discriminate; try reflexivity; lra.
Qed.

Lemma indicator_monotone b1 b2 :
  (b1 = true -> b2 = true) -> FP.leb (indicator b1) (indicator b2) = true.
Proof.
  destruct b1, b2; simpl; intros H; try discriminate (H eq_refl);
    sign_cases; reflexivity.
Qed.

(** X16. Sampling is monotone in the probability: two instances of one
    batch shape with single-precision probabilities, sampled with the same
    count from the same noise, give at every position an outcome for the
    instance with the larger probability that is at least the outcome for
    the other. *)
Theorem sample_monotone seeded self1 self2 n seed w :
  built self1 -> built self2 ->
  Tensor.dtype (Bernoulli.p self1) = float32 ->
  Tensor.dtype (Bernoulli.p self2) = float32 ->
  Bernoulli.get_batch_shape self1 = Bernoulli.get_batch_shape self2 ->
  (forall j, j < size (Bernoulli.get_batch_shape self1) ->
             FP.leb (nth j (Tensor.data (Bernoulli.p self1)) NaN)
                    (nth j (Tensor.data (Bernoulli.p self2)) NaN) = true) ->
  exists s1 s2,
    fst (Bernoulli.sample seeded self1 n seed w) = Ok s1 /\
    fst (Bernoulli.sample seeded self2 n seed w) = Ok s2 /\
    forall i,
      i < n * size (Bernoulli.get_batch_shape self1) ->
      FP.leb (nth i (Tensor.data s1) NaN) (nth i (Tensor.data s2) NaN) = true.
Proof.
  intros H1 H2 Hd1 Hd2 Hs Hle. rewrite !sample_eq by assumption.
  do 2 eexists. split; [reflexivity|]. split; [reflexivity|].
  cbn [Tensor.data]. intros i Hi.
  rewrite thresholded_nth by (assumption || now apply built_p_length).
  assert (Hi2 : i < n * size (Bernoulli.get_batch_shape self2))
    by now rewrite <- Hs.
  rewrite thresholded_nth by (assumption || now apply built_p_length).
  rewrite <- Hs.
  apply indicator_monotone. intros Hlt.
  apply (ltb_leb_trans _ _ _ Hlt). apply Hle.
  apply Nat.mod_upper_bound. intros E. rewrite E in Hi. lia.
Qed.

Lemma sample_monotone_witness :
  let self1 := from_p p_half int32 true true "Bernoulli" in
  let self2 := from_p p_three_halves int32 false true "Bernoulli" in
  exists s1 s2,
    fst (Bernoulli.sample low_stream self1 2 None high_source) = Ok s1 /\
    fst (Bernoulli.sample low_stream self2 2 None high_source) = Ok s2 /\
    forall i,
      i < 2 * size (Bernoulli.get_batch_shape self1) ->
      FP.leb (nth i (Tensor.data s1) NaN) (nth i (Tensor.data s2) NaN) = true.
Proof.
  apply (@sample_monotone low_stream
           (from_p p_half int32 true true "Bernoulli")
           (from_p p_three_halves int32 false true "Bernoulli")
           2 None high_source).
  - apply (@built_by None (Some p_half) int32 true true "Bernoulli");
      [exact I | reflexivity |].
    rewrite init_p by reflexivity. now rewrite passes_half.
  - exact built_three_halves.
  - reflexivity.
  - reflexivity.
  - reflexivity.
  - intros j Hj. simpl in Hj.
    destruct j as [|j]; [|lia]. simpl.
    destruct (Rle_dec (1 / 2) (3 / 2)); [reflexivity | lra].
Defined.
